(** * ETHBalance_Checker: the balance endpoint (app/api/balance route)

    A shallow embedding of the route handler [POST] and of its two pure
    helpers [isValidEthAddress] and [weiToEtherFixed5], followed by the
    properties of the specification that concern them.

    - JavaScript strings are sequences of UTF-16 code units ([jsstring]).
    - BigInt values are unbounded integers ([Z]); [/] and [%] on BigInt
      truncate toward zero ([Z.quot], [Z.rem]).
    - The two regular-expression literals are kept as syntax trees and run by
      a derivative matcher, [RegExp.test].
    - [await], [throw] and the surrounding [try]/[catch] are an error monad
      ([Completion]); the request, the process environment and the network
      are read from an explicit [World]. *)

From Stdlib Require Import Bool Ascii String List NArith ZArith QArith Lia.
From Stdlib Require Import Floats.PrimFloat.
Import ListNotations.

Set Implicit Arguments.
Set Warnings "-register-all".
Local Open Scope N_scope.
Local Open Scope list_scope.

(* ================================================================= *)
(** ** JavaScript strings *)

Module Js.

(** A UTF-16 code unit. *)
Abbreviation code_unit := N (only parsing).
Definition jsstring := list code_unit.

(** A string literal of the source (all of them are ASCII). *)
Fixpoint lit (s : string) : jsstring :=
  match s with
  | EmptyString => []
  | String a rest => N_of_ascii a :: lit rest
  end.

(** ECMAScript WhiteSpace and LineTerminator, the code units that
    [String.prototype.trim] strips. *)
Definition isWhiteSpace (c : code_unit) : bool :=
  ((9 <=? c) && (c <=? 13))          (* TAB, LF, VT, FF, CR *)
  || (c =? 32)                       (* SP *)
  || (c =? 160)                      (* NBSP *)
  || (c =? 5760)                     (* U+1680 *)
  || ((8192 <=? c) && (c <=? 8202))  (* U+2000 .. U+200A *)
  || (c =? 8232) || (c =? 8233)      (* LS, PS *)
  || (c =? 8239)                     (* U+202F *)
  || (c =? 8287)                     (* U+205F *)
  || (c =? 12288)                    (* U+3000 *)
  || (c =? 65279).                   (* ZWNBSP / BOM *)

Fixpoint trimStart (s : jsstring) : jsstring :=
  match s with
  | [] => []
  | c :: rest => if isWhiteSpace c then trimStart rest else s
  end.

Definition trimEnd (s : jsstring) : jsstring := rev (trimStart (rev s)).

(** [s.trim()] *)
Definition trim (s : jsstring) : jsstring := trimEnd (trimStart s).

(** The filler of [padStart]: [fill] repeated and cut to [n] code units. *)
Fixpoint filler (n : nat) (fill cur : jsstring) : jsstring :=
  match n with
  | O => []
  | S m =>
      match cur with
      | c :: cur' => c :: filler m fill cur'
      | [] =>
          match fill with
          | c :: cur' => c :: filler m fill cur'
          | [] => []
          end
      end
  end.

(** [s.padStart(maxLength, fill)] *)
Definition padStart (s : jsstring) (maxLength : nat) (fill : jsstring) : jsstring :=
  if (maxLength <=? length s)%nat then s
  else match fill with
       | [] => s
       | _ => filler (maxLength - length s) fill fill ++ s
       end.

(** Truthiness of a string: only the empty string is falsy. *)
Definition truthy (s : jsstring) : bool :=
  match s with [] => false | _ => true end.

End Js.
Import Js.

(* ================================================================= *)
(** ** Regular expressions *)

Module RegExp.

(** Patterns, as far as the two literals of the source need them.  A
    character class is a list of inclusive code-unit ranges. *)
Inductive regex : Type :=
| Void
| Eps
| Class (ranges : list (N * N))
| Cat (r1 r2 : regex)
| Alt (r1 r2 : regex)
| Star (r : regex).

(** A literal character. *)
Definition Chr (a : ascii) : regex :=
  Class [(N_of_ascii a, N_of_ascii a)].

(** [r{n}] *)
Fixpoint Times (n : nat) (r : regex) : regex :=
  match n with
  | O => Eps
  | S m => Cat r (Times m r)
  end.

(** [r+] *)
Definition Plus (r : regex) : regex := Cat r (Star r).

Definition in_ranges (ranges : list (N * N)) (c : code_unit) : bool :=
  existsb (fun lh => (fst lh <=? c) && (c <=? snd lh)) ranges.

(** The language of a pattern. *)
Inductive lang : regex -> jsstring -> Prop :=
| lang_eps : lang Eps []
| lang_class ranges c : in_ranges ranges c = true -> lang (Class ranges) [c]
| lang_cat r1 r2 s1 s2 :
    lang r1 s1 -> lang r2 s2 -> lang (Cat r1 r2) (s1 ++ s2)
| lang_alt_l r1 r2 s : lang r1 s -> lang (Alt r1 r2) s
| lang_alt_r r1 r2 s : lang r2 s -> lang (Alt r1 r2) s
| lang_star_nil r : lang (Star r) []
| lang_star_app r s1 s2 :
    lang r s1 -> lang (Star r) s2 -> lang (Star r) (s1 ++ s2).

Fixpoint nullable (r : regex) : bool :=
  match r with
  | Void => false
  | Eps => true
  | Class _ => false
  | Cat r1 r2 => nullable r1 && nullable r2
  | Alt r1 r2 => nullable r1 || nullable r2
  | Star _ => true
  end.

Fixpoint deriv (c : code_unit) (r : regex) : regex :=
  match r with
  | Void => Void
  | Eps => Void
  | Class ranges => if in_ranges ranges c then Eps else Void
  | Cat r1 r2 =>
      if nullable r1 then Alt (Cat (deriv c r1) r2) (deriv c r2)
      else Cat (deriv c r1) r2
  | Alt r1 r2 => Alt (deriv c r1) (deriv c r2)
  | Star r1 => Cat (deriv c r1) (Star r1)
  end.

Fixpoint accepts (r : regex) (s : jsstring) : bool :=
  match s with
  | [] => nullable r
  | c :: rest => accepts (deriv c r) rest
  end.

(** [/^r$/.test(s)]: both literals of the source are anchored at both ends
    and carry no flag, so [test] succeeds exactly when the whole input is in
    the language of the body. *)
Definition test (r : regex) (s : jsstring) : bool := accepts r s.

End RegExp.
Import RegExp.

(* ================================================================= *)
(** ** The helpers of the route *)

(** [[a-fA-F0-9]] *)
Definition hexClass : regex :=
  Class [(N_of_ascii "a"%char, N_of_ascii "f"%char);
         (N_of_ascii "A"%char, N_of_ascii "F"%char);
         (N_of_ascii "0"%char, N_of_ascii "9"%char)].

(** [\d] *)
Definition digitClass : regex :=
  Class [(N_of_ascii "0"%char, N_of_ascii "9"%char)].

(** [/^0x[a-fA-F0-9]{40}$/] *)
Definition addressPattern : regex :=
  Cat (Chr "0"%char) (Cat (Chr "x"%char) (Times 40 hexClass)).

(** [/^\d+$/] *)
Definition digitsPattern : regex := Plus digitClass.

Definition isValidEthAddress (addr : jsstring) : bool :=
  test addressPattern (trim addr).

(* ================================================================= *)
(** ** Completions: [throw], [await] of a rejected promise, [try]/[catch] *)

(** The handler's [catch] clause binds no variable, so the thrown value
    is not kept. *)
Inductive Completion (A : Type) : Type :=
| Normal (a : A)
| Throw.

Arguments Normal {A} a.
Arguments Throw {A}.

Definition bind {A B : Type} (c : Completion A) (k : A -> Completion B)
  : Completion B :=
  match c with
  | Normal a => k a
  | Throw => Throw
  end.

Notation "x <- c ;; k" := (bind c (fun x => k))
  (at level 61, c at next level, right associativity).

(* ================================================================= *)
(** ** Decimal numerals and BigInt *)

Module BigInt.

Definition isDigit (c : code_unit) : bool := (48 <=? c) && (c <=? 57).

(** The decimal digits of [n], most significant first, in front of [acc].
    [fuel] bounds the number of digits. *)
Fixpoint digitsOf (fuel : nat) (n : N) (acc : jsstring) : jsstring :=
  match fuel with
  | O => acc
  | S fuel' =>
      let acc' := (48 + n mod 10) :: acc in
      if n / 10 =? 0 then acc' else digitsOf fuel' (n / 10) acc'
  end.

(** The decimal numeral of a natural number: [String(n)] for an integer
    Number such as an HTTP status, and the digits of a BigInt. *)
Definition numeral (n : N) : jsstring :=
  digitsOf (S (N.to_nat (N.size n))) n [].

(** [z.toString()] on a BigInt. *)
Definition toString (z : Z) : jsstring :=
  match z with
  | Zneg _ => lit "-" ++ numeral (Z.abs_N z)
  | _ => numeral (Z.abs_N z)
  end.

(** The value of a run of decimal digits read after the value [acc]. *)
Fixpoint readDigits (acc : Z) (s : jsstring) : option Z :=
  match s with
  | [] => Some acc
  | c :: rest =>
      if isDigit c then readDigits (10 * acc + (Z.of_N c - 48))%Z rest
      else None
  end.

(** [BigInt(s)] on the strings the converter passes, non-empty runs of
    decimal digits.  The other literal forms of StringToBigInt (blank
    strings, surrounding white space, radix prefixes) are not modelled and
    answer [Throw] here, like the strings JavaScript rejects with a
    SyntaxError. *)
Definition ofString (s : jsstring) : Completion Z :=
  match s with
  | [] => Throw
  | _ => match readDigits 0%Z s with
         | Some z => Normal z
         | None => Throw
         end
  end.

End BigInt.

(** Convert Wei string to Ether string with 5 decimals using BigInt math *)
Definition weiToEtherFixed5 (weiStr : jsstring) : Completion jsstring :=
  if negb (test digitsPattern weiStr) then Normal (lit "0.00000")
  else
    wei <- BigInt.ofString weiStr ;;
    let base := (10 ^ 18)%Z in
    let whole := Z.quot wei base in
    let remainder := Z.rem wei base in
    let scaled := Z.quot (remainder * 10 ^ 5) base in (* floor to 5 decimals *)
    let decimals := padStart (BigInt.toString scaled) 5 (lit "0") in
    Normal (BigInt.toString whole ++ lit "." ++ decimals).

(* ================================================================= *)
(** ** JSON values and the world around the handler *)

(** What [JSON.parse] produces.  Numbers are IEEE doubles; an object is
    its list of own properties (the parser leaves one entry per key, and
    [lookup] reads the first). *)
Inductive json : Type :=
| JNull
| JBool (b : bool)
| JNum (x : float)
| JStr (s : jsstring)
| JArr (items : list json)
| JObj (fields : list (jsstring * json)).

(** A JavaScript value bound to a variable: a JSON value, or [undefined]
    ([None]). *)
Definition value := option json.

(** [s === t] on strings. *)
Fixpoint sameString (s t : jsstring) : bool :=
  match s, t with
  | [], [] => true
  | c :: s', d :: t' => (c =? d) && sameString s' t'
  | _, _ => false
  end.

Fixpoint lookup {A : Type} (key : jsstring) (fields : list (jsstring * A))
  : option A :=
  match fields with
  | [] => None
  | (k, v) :: rest => if sameString k key then Some v else lookup key rest
  end.

(** [const { address } = parsed]: destructuring [null] throws a TypeError;
    on an object the own property is read; arrays, strings, numbers and
    booleans have no property of that name, nor do their prototypes. *)
Definition destructureAddress (parsed : json) : Completion value :=
  match parsed with
  | JNull => Throw
  | JObj fields => Normal (lookup (lit "address") fields)
  | _ => Normal None
  end.

(** ToBoolean *)
Definition toBoolean (v : value) : bool :=
  match v with
  | None => false
  | Some JNull => false
  | Some (JBool b) => b
  | Some (JNum x) => negb (PrimFloat.eqb x 0%float || negb (PrimFloat.eqb x x))
  | Some (JStr s) => truthy s
  | Some (JArr _) => true
  | Some (JObj _) => true
  end.

(** [typeof v === "string"] *)
Definition typeofString (v : value) : bool :=
  match v with
  | Some (JStr _) => true
  | _ => false
  end.

(** The string a value is, once [typeof] has said it is one. *)
Definition stringOf (v : value) : jsstring :=
  match v with
  | Some (JStr s) => s
  | _ => []
  end.

(** The upstream envelope, at the type the handler casts it to:
    [{ status?: string; message?: string; result?: string }]. *)
Record Envelope : Type := {
  status : option jsstring;
  message : option jsstring;
  result : option jsstring
}.

(** What [fetch] resolves to: the transport status, and the outcome of
    [await res.json()] with the three fields the handler reads of it.
    [res_json] is [Throw] when the body is not JSON text, or is [null],
    whose fields cannot be read. *)
Record FetchResponse : Type := {
  res_status : N;
  res_json : Completion Envelope
}.

(** [res.ok]: the status is in the range 200-299. *)
Definition ok (res : FetchResponse) : bool :=
  (200 <=? res_status res) && (res_status res <=? 299).

Record URL : Type := {
  href : jsstring;
  searchParams : list (jsstring * jsstring)
}.

(** [url.searchParams.set(name, v)]: the first pair of that name takes the
    value and the later ones go; without one the pair is appended. *)
Fixpoint paramsDelete (name : jsstring) (ps : list (jsstring * jsstring))
  : list (jsstring * jsstring) :=
  match ps with
  | [] => []
  | (k, v) :: rest =>
      if sameString k name then paramsDelete name rest
      else (k, v) :: paramsDelete name rest
  end.

Fixpoint paramsSet (name v : jsstring) (ps : list (jsstring * jsstring))
  : list (jsstring * jsstring) :=
  match ps with
  | [] => [(name, v)]
  | (k, v0) :: rest =>
      if sameString k name then (k, v) :: paramsDelete name rest
      else (k, v0) :: paramsSet name v rest
  end.

Definition searchParams_set (url : URL) (name v : jsstring) : URL :=
  {| href := href url; searchParams := paramsSet name v (searchParams url) |}.

(** Everything the handler reads from outside: the outcome of
    [req.json()] (it rejects when the body is empty or is not JSON text),
    [process.env.ETHERSCAN_API_KEY], and the network. *)
Record World : Type := {
  req_json : Completion json;
  ETHERSCAN_API_KEY : option jsstring;
  fetch : URL -> Completion FetchResponse
}.

(** The JSON document of a response of the handler. *)
Inductive Body : Type :=
| ErrorBody (error : jsstring)
| BalanceBody (balanceEther : jsstring).

Record Response : Type := {
  body : Body;
  statusCode : N
}.

(** [Response.json(data, { status })] *)
Definition Response_json (data : Body) (init : option N) : Response :=
  {| body := data;
     statusCode := match init with Some st => st | None => 200 end |}.

(** A variable of type [string | undefined]: ToBoolean, the string it
    holds once a guard has found it truthy, and [a || b]. *)
Definition isTruthy (a : option jsstring) : bool :=
  match a with
  | Some s => truthy s
  | None => false
  end.

Definition theString (a : option jsstring) : jsstring :=
  match a with
  | Some s => s
  | None => []
  end.

Definition orElse (a : option jsstring) (b : jsstring) : jsstring :=
  if isTruthy a then theString a else b.

(** [a === s] for a string literal [s]. *)
Definition strictEquals (a : option jsstring) (s : jsstring) : bool :=
  match a with
  | Some t => sameString t s
  | None => false
  end.

(** The request URL of the balance query. *)
Definition balanceUrl (address apiKey : jsstring) : URL :=
  let url := {| href := lit "https://api.etherscan.io/api"; searchParams := [] |} in
  let url := searchParams_set url (lit "module") (lit "account") in
  let url := searchParams_set url (lit "action") (lit "balance") in
  let url := searchParams_set url (lit "address") address in
  let url := searchParams_set url (lit "tag") (lit "latest") in
  searchParams_set url (lit "apikey") apiKey.

(** The body of the [try] block of [POST]. *)
Definition POST_try (w : World) : Completion Response :=
  parsed <- req_json w ;;
  address <- destructureAddress parsed ;;
  if negb (toBoolean address) || negb (typeofString address) then
    Normal (Response_json (ErrorBody (lit "Missing 'address' in request body.")) (Some 400))
  else
  let address := stringOf address in
  if negb (isValidEthAddress address) then
    Normal (Response_json (ErrorBody (lit "Invalid Ethereum address format.")) (Some 400))
  else
  let apiKey := ETHERSCAN_API_KEY w in
  if negb (isTruthy apiKey) then
    Normal (Response_json
      (ErrorBody (lit "Server misconfiguration: ETHERSCAN_API_KEY is not set."))
      (Some 500))
  else
  let url := balanceUrl address (theString apiKey) in
  res <- fetch w url ;;
  if negb (ok res) then
    Normal (Response_json
      (ErrorBody (lit "Etherscan request failed with status "
                  ++ BigInt.numeral (res_status res) ++ lit "."))
      (Some 502))
  else
  data <- res_json res ;;
  if negb (strictEquals (status data) (lit "1")) || negb (isTruthy (result data)) then
    Normal (Response_json
      (ErrorBody (orElse (message data) (lit "Failed to retrieve balance from Etherscan.")))
      (Some 502))
  else
  balanceEther <- weiToEtherFixed5 (theString (result data)) ;;
  Normal (Response_json (BalanceBody balanceEther) None).

(** [POST]: the [try] block, and the [catch] clause for whatever it throws. *)
Definition POST (w : World) : Response :=
  match POST_try w with
  | Normal response => response
  | Throw => Response_json (ErrorBody (lit "Unexpected server error.")) (Some 500)
  end.

(* ================================================================= *)
(** ** The page (app/page.tsx) *)

Module Page.

(** The page keeps its own copy of the validator. *)
Definition isValidEthAddress (addr : jsstring) : bool :=
  test addressPattern (trim addr).

(** The state of [Home]: the four [useState] cells and the motion value.
    A cell typed [string | null] holds whatever is stored in it: [null] is
    [Some JNull], [undefined] is [None]. *)
Record State : Type := {
  address : jsstring;
  balance : value;
  loading : bool;
  error : value;
  valueMV : float
}.

Definition setAddress (a : jsstring) (st : State) : State :=
  {| address := a; balance := balance st; loading := loading st;
     error := error st; valueMV := valueMV st |}.

Definition setBalance (b : value) (st : State) : State :=
  {| address := address st; balance := b; loading := loading st;
     error := error st; valueMV := valueMV st |}.

Definition setLoading (l : bool) (st : State) : State :=
  {| address := address st; balance := balance st; loading := l;
     error := error st; valueMV := valueMV st |}.

Definition setError (e : value) (st : State) : State :=
  {| address := address st; balance := balance st; loading := loading st;
     error := e; valueMV := valueMV st |}.

Definition valueMV_set (x : float) (st : State) : State :=
  {| address := address st; balance := balance st; loading := loading st;
     error := error st; valueMV := x |}.

Definition null : value := Some JNull.

Definition str (s : jsstring) : value := Some (JStr s).

(** What [fetch("/api/balance", ...)] resolves to: the status, and the
    outcome of [res.json()]. *)
Record ApiResponse : Type := {
  api_status : N;
  api_json : Completion json
}.

Definition api_ok (res : ApiResponse) : bool :=
  (200 <=? api_status res) && (api_status res <=? 299).

(** [data.name], for a name that no array, string, number or boolean
    carries ([error], [balanceEther]): reading a field of [null] throws. *)
Definition readField (name : jsstring) (data : json) : Completion value :=
  match data with
  | JNull => Throw
  | JObj fields => Normal (lookup name fields)
  | _ => Normal None
  end.

(** [data?.name] *)
Definition readOptional (name : jsstring) (data : json) : value :=
  match data with
  | JObj fields => lookup name fields
  | _ => None
  end.

(** [a || b] on values. *)
Definition orValue (a b : value) : value := if toBoolean a then a else b.

(** The document [JSON.stringify({ address })] sends. *)
Definition requestBody (a : jsstring) : json := JObj [(lit "address", JStr a)].

(** The [try] block of [handleCheck].  The state is written by its last
    statement only, so a throw leaves the state as it was. *)
Definition handleCheck_try (api : json -> Completion ApiResponse) (st : State)
  : Completion State :=
  res <- api (requestBody (address st)) ;;
  data <- api_json res ;;
  if negb (api_ok res) then
    Normal (setError
              (orValue (readOptional (lit "error") data)
                       (str (lit "Failed to fetch balance.")))
              st)
  else
    balanceEther <- readField (lit "balanceEther") data ;;
    Normal (setBalance balanceEther st).

(** [handleCheck], run to its end against the network [api], with no other
    event in between. *)
Definition handleCheck (api : json -> Completion ApiResponse) (st : State)
  : State :=
  let st := setError null st in
  let st := setBalance null st in
  let st := valueMV_set 0%float st in
  if negb (isValidEthAddress (address st)) then
    setError
      (str (lit "Please enter a valid Ethereum address (0x... with 40 hex characters)."))
      st
  else
  let st := setLoading true st in
  let st :=
    match handleCheck_try api st with
    | Normal st' => st'
    | Throw => setError (str (lit "Network error. Please try again.")) st
    end in
  setLoading false st.

(** [handlePaste], given the outcome of [navigator.clipboard.readText()]. *)
Definition handlePaste (clipboard : Completion jsstring) (st : State) : State :=
  match clipboard with
  | Normal text => if truthy text then setAddress (trim text) st else st
  | Throw =>
      setError
        (str (lit "Clipboard access blocked. Paste manually with Ctrl/"
              ++ [8984] ++ lit "+V."))
        st
  end.

(** [handleKeyDown], given [e.key]. *)
Definition handleKeyDown (api : json -> Completion ApiResponse)
    (key : jsstring) (st : State) : State :=
  if sameString key (lit "Enter") && negb (loading st) && truthy (address st)
  then handleCheck api st
  else st.

(** What the markup shows: [disabled={loading || !address}] on the Check
    button, [{error && ...}] for the alert, and
    [{balance !== null && !error && !loading && ...}] for the result. *)
Definition checkDisabled (st : State) : bool :=
  loading st || negb (truthy (address st)).

Definition showsError (st : State) : bool := toBoolean (error st).

Definition notNull (v : value) : bool :=
  match v with
  | Some JNull => false
  | _ => true
  end.

Definition showsBalance (st : State) : bool :=
  notNull (balance st) && negb (toBoolean (error st)) && negb (loading st).

End Page.

(* ================================================================= *)
(** ** The vocabulary of the properties *)

(** Membership in a character class, and white space, as propositions. *)
Definition inClass (ranges : list (N * N)) (c : code_unit) : Prop :=
  in_ranges ranges c = true.

Definition blank (c : code_unit) : Prop := isWhiteSpace c = true.

(** A character of [[0-9a-fA-F]]. *)
Definition isHexDigit (c : code_unit) : bool :=
  ((48 <=? c) && (c <=? 57))          (* 0-9 *)
  || ((97 <=? c) && (c <=? 102))      (* a-f *)
  || ((65 <=? c) && (c <=? 70)).      (* A-F *)

Import BigInt.

(** The number a string of decimal digits denotes, by position. *)
Fixpoint decimalValue (s : jsstring) : Z :=
  match s with
  | [] => 0%Z
  | c :: rest =>
      ((Z.of_N c - 48) * 10 ^ Z.of_nat (length rest) + decimalValue rest)%Z
  end.

Definition allDigits (s : jsstring) : Prop :=
  Forall (fun c => isDigit c = true) s.

(** The strings [/^\d+$/] describes. *)
Definition digitString (s : jsstring) : Prop := s <> [] /\ allDigits s.

(** [ds] is the decimal numeral of [z]: digits that denote [z], without a
    leading zero unless [ds] is ["0"]. *)
Definition numeralOf (z : Z) (ds : jsstring) : Prop :=
  digitString ds /\ decimalValue ds = z
  /\ (forall rest, ds = 48 :: rest -> rest = []).

(** *** Reading a formatted balance back *)

(** The text before and after the first dot. *)
Fixpoint splitAtDot (s : jsstring) : option (jsstring * jsstring) :=
  match s with
  | [] => None
  | c :: rest =>
      if c =? 46 then Some ([], rest)
      else match splitAtDot rest with
           | Some (w, f) => Some (c :: w, f)
           | None => None
           end
  end.

(** The exact rational a decimal text [w.f] denotes. *)
Definition parseDecimal (out : jsstring) : option Q :=
  match splitAtDot out with
  | Some (w, f) =>
      if forallb isDigit w && forallb isDigit f
         && negb (length w =? 0)%nat && negb (length f =? 0)%nat
      then Some (inject_Z (decimalValue w)
                 + (decimalValue f # Z.to_pos (10 ^ Z.of_nat (length f))))%Q
      else None
  | None => None
  end.

(** *** Responses and situations of the handler *)

Definition missingAddress : Response :=
  Response_json (ErrorBody (lit "Missing 'address' in request body.")) (Some 400).

Definition invalidAddress : Response :=
  Response_json (ErrorBody (lit "Invalid Ethereum address format.")) (Some 400).

Definition unexpectedError : Response :=
  Response_json (ErrorBody (lit "Unexpected server error.")) (Some 500).

Definition genericFailure : jsstring :=
  lit "Failed to retrieve balance from Etherscan.".

(** The request carries a JSON object whose [address] is the value [v]
    ([None] when the object has no such field). *)
Definition bodyAddress (w : World) (v : value) : Prop :=
  exists fields,
    req_json w = Normal (JObj fields) /\ lookup (lit "address") fields = v.

(** The request passes validation, the credential is set, the upstream
    call answers with a success transport status, and its body parses to
    the envelope [data]. *)
Definition upstreamEnvelope (w : World) (data : Envelope) : Prop :=
  exists address apiKey res,
    bodyAddress w (Some (JStr address))
    /\ isValidEthAddress address = true
    /\ ETHERSCAN_API_KEY w = Some apiKey /\ apiKey <> []
    /\ fetch w (balanceUrl address apiKey) = Normal res
    /\ ok res = true
    /\ res_json res = Normal data.

(** Worlds to run the handler in. *)
Definition sampleAddress : jsstring :=
  lit "0xde0B295669a9FD93d5F28D9Ec85E40f4cb697BAe".

Definition addressBody (a : jsstring) : json := JObj [(lit "address", JStr a)].

Definition answering (data : Envelope) : Completion FetchResponse :=
  Normal {| res_status := 200; res_json := Normal data |}.

Definition sampleWorld (parsed : Completion json)
    (upstream : Completion FetchResponse) : World :=
  {| req_json := parsed;
     ETHERSCAN_API_KEY := Some (lit "KEY");
     fetch := fun _ => upstream |}.

(** *** The paths of the handler *)

Definition misconfigured : Response :=
  Response_json
    (ErrorBody (lit "Server misconfiguration: ETHERSCAN_API_KEY is not set."))
    (Some 500).

Definition transportFailure (st : N) : Response :=
  Response_json
    (ErrorBody (lit "Etherscan request failed with status "
                ++ BigInt.numeral st ++ lit "."))
    (Some 502).

Definition upstreamRejected (data : Envelope) : Response :=
  Response_json (ErrorBody (orElse (message data) genericFailure)) (Some 502).

Definition success (balanceEther : jsstring) : Response :=
  Response_json (BalanceBody balanceEther) None.

(** The request carries the string [a] as its address, the validator
    accepts it, and the credential [k] is set. *)
Definition keyed (w : World) (a k : jsstring) : Prop :=
  bodyAddress w (Some (JStr a)) /\ isValidEthAddress a = true
  /\ ETHERSCAN_API_KEY w = Some k /\ k <> [].

(** The ten ways through [POST], each with the response it ends in. *)
Inductive handles (w : World) : Response -> Prop :=
| handles_no_body :
    req_json w = Throw -> handles w unexpectedError
| handles_null_body :
    req_json w = Normal JNull -> handles w unexpectedError
| handles_missing parsed v :
    req_json w = Normal parsed -> destructureAddress parsed = Normal v ->
    toBoolean v = false \/ typeofString v = false ->
    handles w missingAddress
| handles_invalid a :
    bodyAddress w (Some (JStr a)) -> a <> [] -> isValidEthAddress a = false ->
    handles w invalidAddress
| handles_misconfigured a :
    bodyAddress w (Some (JStr a)) -> isValidEthAddress a = true ->
    isTruthy (ETHERSCAN_API_KEY w) = false ->
    handles w misconfigured
| handles_network a k :
    keyed w a k -> fetch w (balanceUrl a k) = Throw ->
    handles w unexpectedError
| handles_transport a k res :
    keyed w a k -> fetch w (balanceUrl a k) = Normal res -> ok res = false ->
    handles w (transportFailure (res_status res))
| handles_garbled a k res :
    keyed w a k -> fetch w (balanceUrl a k) = Normal res -> ok res = true ->
    res_json res = Throw ->
    handles w unexpectedError
| handles_rejected data :
    upstreamEnvelope w data ->
    strictEquals (status data) (lit "1") = false
    \/ isTruthy (result data) = false ->
    handles w (upstreamRejected data)
| handles_success data r balanceEther :
    upstreamEnvelope w data ->
    status data = Some (lit "1") -> result data = Some r -> r <> [] ->
    weiToEtherFixed5 r = Normal balanceEther ->
    handles w (success balanceEther).

(** A formatted balance: a decimal numeral, a dot, five digits. *)
Definition formatted (b : jsstring) : Prop :=
  exists z w f,
    b = w ++ lit "." ++ f /\ numeralOf z w
    /\ length f = 5%nat /\ allDigits f.

(** The same world over another network. *)
Definition withFetch (w : World) (f : URL -> Completion FetchResponse) : World :=
  {| req_json := req_json w;
     ETHERSCAN_API_KEY := ETHERSCAN_API_KEY w;
     fetch := f |}.

(** [A]-[Z] to [a]-[z], other code units unchanged. *)
Definition asciiLower (c : code_unit) : code_unit :=
  if (65 <=? c) && (c <=? 90) then c + 32 else c.

(** *** The page against the route *)

(** The JSON document [Response.json] sends for a body. *)
Definition bodyJson (b : Body) : json :=
  match b with
  | ErrorBody e => JObj [(lit "error", JStr e)]
  | BalanceBody s => JObj [(lit "balanceEther", JStr s)]
  end.

(** A response of the route as the page's [fetch] receives it: the same
    status, and the same document read back by [res.json()]. *)
Definition served (r : Response) : Page.ApiResponse :=
  {| Page.api_status := statusCode r;
     Page.api_json := Normal (bodyJson (body r)) |}.

(** [/api/balance] served by [POST], with the credential [key] and the
    upstream network [upstream]: the document the page sent is what
    [req.json()] resolves to. *)
Definition endpoint (key : option jsstring)
    (upstream : URL -> Completion FetchResponse) (doc : json)
  : Completion Page.ApiResponse :=
  Normal (served (POST {| req_json := Normal doc;
                          ETHERSCAN_API_KEY := key;
                          fetch := upstream |})).

(** The world in which the route handles the page's request for the
    address [a]. *)
Definition pageRequest (key : option jsstring)
    (upstream : URL -> Completion FetchResponse) (a : jsstring) : World :=
  {| req_json := Normal (Page.requestBody a);
     ETHERSCAN_API_KEY := key;
     fetch := upstream |}.

(** A page with an address typed in and nothing else. *)
Definition samplePage : Page.State :=
  {| Page.address := sampleAddress; Page.balance := Page.null;
     Page.loading := false; Page.error := Page.null;
     Page.valueMV := 0%float |}.

(* ================================================================= *)
(** * Properties *)

(** ** The matcher decides the language of a pattern *)

Ltac inv H := inversion H; clear H; subst.

(** Split an equation [s1 ++ s2 = w] left by an inversion of [lang_cat] or
    [lang_star_app] on the first character of [w]. *)
Ltac split_app :=
  match goal with
  | E : ?s1 ++ _ = [] |- _ =>
      apply app_eq_nil in E; destruct E; subst
  | E : ?s1 ++ _ = _ :: _ |- _ =>
      destruct s1; simpl in E; [subst | injection E as -> <-]
  end.

Section Matcher.

Lemma nullable_lang (r : regex) : nullable r = true <-> lang r [].
Proof.
  induction r as [| | rs | r1 IH1 r2 IH2 | r1 IH1 r2 IH2 | r IH]; simpl.
  - split; [discriminate | intros H; inversion H].
  - split; [constructor | reflexivity].
  - split; [discriminate | intros H; inversion H].
  - rewrite andb_true_iff, IH1, IH2. split.
    + intros [H1 H2]. exact (lang_cat H1 H2).
    + intros H. inv H. split_app. now split.
  - rewrite orb_true_iff, IH1, IH2. split.
    + intros [H | H]; [now apply lang_alt_l | now apply lang_alt_r].
    + intros H. inv H; [now left | now right].
  - split; [constructor | reflexivity].
Qed.

Lemma lang_star_cons (r : regex) (c : code_unit) (s : jsstring) :
  lang (Star r) (c :: s) ->
  exists s1 s2, s = s1 ++ s2 /\ lang r (c :: s1) /\ lang (Star r) s2.
Proof.
  intros H.
  remember (Star r) as r0 eqn:Er. remember (c :: s) as w eqn:Ew.
  revert s Ew.
  induction H as [| | | | | | r' s1 s2 H1 _ H2 IH2]; intros t Ew;
    try discriminate.
  injection Er as ->.
  destruct s1 as [| c1 s1]; simpl in Ew.
  - now apply IH2.
  - injection Ew as -> <-.
    exists s1, s2. now repeat split.
Qed.

Lemma deriv_lang (c : code_unit) (r : regex) :
  forall s, lang (deriv c r) s <-> lang r (c :: s).
Proof.
  induction r as [| | rs | r1 IH1 r2 IH2 | r1 IH1 r2 IH2 | r IH];
    intros s; simpl.
  - split; intros H; inversion H.
  - split; intros H; inversion H.
  - destruct (in_ranges rs c) eqn:E; split; intros H; inv H.
    + now constructor.
    + constructor.
    + congruence.
  - destruct (nullable r1) eqn:N1; split; intros H.
    + inv H.
      * match goal with HL : lang (Cat _ _) _ |- _ => inv HL end.
        change (lang (Cat r1 r2) ((c :: s1) ++ s2)).
        apply lang_cat; [now apply IH1 | assumption].
      * apply nullable_lang in N1.
        change (lang (Cat r1 r2) ([] ++ c :: s)).
        apply lang_cat; [assumption | now apply IH2].
    + inv H. split_app.
      * apply lang_alt_r. now apply IH2.
      * apply lang_alt_l. apply lang_cat; [now apply IH1 | assumption].
    + inv H.
      change (lang (Cat r1 r2) ((c :: s1) ++ s2)).
      apply lang_cat; [now apply IH1 | assumption].
    + inv H. split_app.
      * match goal with H1 : lang r1 [] |- _ => apply nullable_lang in H1 end.
        congruence.
      * apply lang_cat; [now apply IH1 | assumption].
  - split; intros H; inv H.
    + apply lang_alt_l. now apply IH1.
    + apply lang_alt_r. now apply IH2.
    + apply lang_alt_l. now apply IH1.
    + apply lang_alt_r. now apply IH2.
  - split; intros H.
    + inv H.
      change (lang (Star r) ((c :: s1) ++ s2)).
      apply lang_star_app; [now apply IH | assumption].
    + apply lang_star_cons in H. destruct H as (s1 & s2 & -> & H1 & H2).
      apply lang_cat; [now apply IH | assumption].
Qed.

Lemma test_lang (r : regex) (s : jsstring) : test r s = true <-> lang r s.
Proof.
  unfold test. revert r.
  induction s as [| c s IH]; intros r; simpl.
  - apply nullable_lang.
  - rewrite IH. apply deriv_lang.
Qed.

End Matcher.

(** ** Patterns built from character classes *)

Section Classes.

Variable ranges : list (N * N).

Local Abbreviation member := (inClass ranges).

Lemma lang_class_cat (r : regex) (s : jsstring) :
  lang (Cat (Class ranges) r) s <->
  exists c rest, s = c :: rest /\ member c /\ lang r rest.
Proof.
  split.
  - intros H. inv H.
    match goal with H1 : lang (Class _) _ |- _ => inv H1 end.
    now eexists _, _.
  - intros (c & rest & -> & Hc & Hr).
    change (lang (Cat (Class ranges) r) ([c] ++ rest)).
    apply lang_cat; [now constructor | assumption].
Qed.

Lemma lang_class_times (n : nat) (s : jsstring) :
  lang (Times n (Class ranges)) s <-> length s = n /\ Forall member s.
Proof.
  revert s. induction n as [| n IH]; intros s; simpl.
  - split.
    + intros H. inv H. now split.
    + intros [E _]. destruct s; [constructor | discriminate].
  - rewrite lang_class_cat. split.
    + intros (c & rest & -> & Hc & Hr). apply IH in Hr as [El Ha].
      simpl. split; [now f_equal | now constructor].
    + intros [El Ha]. destruct s as [| c rest]; [discriminate |].
      inv Ha. exists c, rest. repeat split; trivial.
      apply IH. split; [now injection El | assumption].
Qed.

Lemma lang_class_star (s : jsstring) :
  lang (Star (Class ranges)) s <-> Forall member s.
Proof.
  split.
  - intros H. remember (Star (Class ranges)) as r eqn:Er.
    induction H as [| | | | | | r' s1 s2 H1 _ H2 IH2]; try discriminate.
    + constructor.
    + injection Er as ->. inv H1. simpl. constructor; auto.
  - induction 1 as [| c rest Hc _ IH]; [constructor |].
    change (lang (Star (Class ranges)) ([c] ++ rest)).
    apply lang_star_app; [now constructor | assumption].
Qed.

Lemma lang_class_plus (s : jsstring) :
  lang (Plus (Class ranges)) s <-> s <> [] /\ Forall member s.
Proof.
  unfold Plus. rewrite lang_class_cat. split.
  - intros (c & rest & -> & Hc & Hr). apply lang_class_star in Hr.
    split; [discriminate | now constructor].
  - intros [Hne Ha]. destruct s as [| c rest]; [congruence |].
    inv Ha. exists c, rest. repeat split; trivial.
    now apply lang_class_star.
Qed.

End Classes.

(** ** White space and [trim] *)

Section Trim.

Lemma trimStart_split (s : jsstring) :
  exists l, s = l ++ trimStart s /\ Forall blank l.
Proof.
  induction s as [| c s (l & E & Hl)]; simpl.
  - now exists [].
  - destruct (isWhiteSpace c) eqn:Hc.
    + exists (c :: l). split; [simpl; now f_equal | now constructor].
    + now exists [].
Qed.

Lemma trimStart_head (s : jsstring) (c : code_unit) (rest : jsstring) :
  trimStart s = c :: rest -> isWhiteSpace c = false.
Proof.
  induction s as [| d s IH]; simpl; [discriminate |].
  destruct (isWhiteSpace d) eqn:Hd; [assumption |].
  now intros [= <- _].
Qed.

Lemma trimEnd_split (s : jsstring) :
  exists r, s = trimEnd s ++ r /\ Forall blank r.
Proof.
  unfold trimEnd.
  destruct (trimStart_split (rev s)) as (l & E & Hl).
  exists (rev l). split.
  - rewrite <- rev_app_distr, <- E. now rewrite rev_involutive.
  - apply Forall_rev. assumption.
Qed.

Lemma trimEnd_last (s front : jsstring) (c : code_unit) :
  trimEnd s = front ++ [c] -> isWhiteSpace c = false.
Proof.
  unfold trimEnd. intros E.
  apply (f_equal (@rev code_unit)) in E.
  rewrite rev_involutive, rev_app_distr in E. simpl in E.
  exact (trimStart_head _ E).
Qed.

(** [trim] removes a run of white space at each end, and the longest one:
    what is left neither starts nor ends with white space. *)
Lemma trim_spec (s : jsstring) :
  (exists l r, s = l ++ trim s ++ r /\ Forall blank l /\ Forall blank r)
  /\ (forall c rest, trim s = c :: rest -> isWhiteSpace c = false)
  /\ (forall front c, trim s = front ++ [c] -> isWhiteSpace c = false).
Proof.
  unfold trim.
  destruct (trimStart_split s) as (l & El & Hl).
  destruct (trimEnd_split (trimStart s)) as (r & Er & Hr).
  repeat split.
  - exists l, r. repeat split; trivial. now rewrite <- Er.
  - intros c rest E. rewrite E in Er. simpl in Er.
    exact (trimStart_head _ Er).
  - intros front c. apply trimEnd_last.
Qed.

End Trim.

(** ** The validator *)

Lemma hexClass_member (c : code_unit) :
  inClass [(97, 102); (65, 70); (48, 57)] c <-> isHexDigit c = true.
Proof.
  unfold inClass, in_ranges, isHexDigit. simpl.
  rewrite orb_false_r.
  destruct ((48 <=? c) && (c <=? 57)), ((97 <=? c) && (c <=? 102)),
    ((65 <=? c) && (c <=? 70)); simpl; tauto.
Qed.

Lemma single_member (a c : code_unit) : inClass [(a, a)] c <-> c = a.
Proof.
  unfold inClass, in_ranges. simpl.
  rewrite orb_false_r, andb_true_iff, !N.leb_le. lia.
Qed.

Lemma addressPattern_lang (t : jsstring) :
  lang addressPattern t <->
  exists h, t = lit "0x" ++ h /\ length h = 40%nat
            /\ Forall (fun c => isHexDigit c = true) h.
Proof.
  unfold addressPattern, Chr, hexClass.
  change (N_of_ascii "0") with 48. change (N_of_ascii "x") with 120.
  change (N_of_ascii "a") with 97. change (N_of_ascii "f") with 102.
  change (N_of_ascii "A") with 65. change (N_of_ascii "F") with 70.
  change (N_of_ascii "9") with 57.
  rewrite lang_class_cat. split.
  - intros (c0 & t0 & -> & H0 & Ht0).
    apply lang_class_cat in Ht0 as (c1 & h & -> & H1 & Hh).
    apply single_member in H0, H1. subst c0 c1.
    apply lang_class_times in Hh as [Hlen Hall].
    exists h. repeat split; trivial.
    revert Hall. apply Forall_impl. intros c. apply hexClass_member.
  - intros (h & -> & Hlen & Hall).
    exists 48, (120 :: h).
    split; [reflexivity | split; [now apply single_member |]].
    apply lang_class_cat. exists 120, h.
    split; [reflexivity | split; [now apply single_member |]].
    apply lang_class_times. split; trivial.
    revert Hall. apply Forall_impl. intros c. apply hexClass_member.
Qed.

(** C2. [isValidEthAddress s] is [true] exactly when [s.trim()] is ["0x"]
    followed by exactly 40 characters of [[0-9a-fA-F]], where [s.trim()] is
    [s] without the longest run of white space at each end.  The validator
    is a total function to [bool] of its argument alone. *)
Theorem isValidEthAddress_spec (s : jsstring) :
  ((exists l r, s = l ++ trim s ++ r /\ Forall blank l /\ Forall blank r)
   /\ (forall c rest, trim s = c :: rest -> isWhiteSpace c = false)
   /\ (forall front c, trim s = front ++ [c] -> isWhiteSpace c = false))
  /\ (isValidEthAddress s = true <->
      exists h, trim s = lit "0x" ++ h /\ length h = 40%nat
                /\ Forall (fun c => isHexDigit c = true) h).
Proof.
  split; [apply trim_spec |].
  unfold isValidEthAddress. rewrite test_lang. apply addressPattern_lang.
Qed.

(** ** Decimal numerals *)

Section Numerals.

Local Open Scope Z_scope.

Lemma isDigit_range (c : code_unit) :
  isDigit c = true <-> 0 <= Z.of_N c - 48 <= 9.
Proof.
  unfold isDigit. rewrite andb_true_iff, !N.leb_le. lia.
Qed.

Lemma pow10_succ (n : nat) : 10 ^ Z.of_nat (S n) = 10 * 10 ^ Z.of_nat n.
Proof. rewrite Nat2Z.inj_succ. apply Z.pow_succ_r. lia. Qed.

Lemma pow10_pos (n : nat) : 0 < 10 ^ Z.of_nat n.
Proof. apply Z.pow_pos_nonneg; lia. Qed.

Lemma decimalValue_app (a b : jsstring) :
  decimalValue (a ++ b)
  = decimalValue a * 10 ^ Z.of_nat (length b) + decimalValue b.
Proof.
  induction a as [| c a IH]; simpl; [lia |].
  rewrite IH, length_app, Nat2Z.inj_add, Z.pow_add_r by lia. ring.
Qed.

Lemma decimalValue_bounds (s : jsstring) :
  allDigits s -> 0 <= decimalValue s < 10 ^ Z.of_nat (length s).
Proof.
  induction 1 as [| c s Hc _ IH].
  - simpl. lia.
  - apply isDigit_range in Hc.
    cbn [decimalValue length]. rewrite pow10_succ.
    pose proof (pow10_pos (length s)). nia.
Qed.

Lemma readDigits_value (s : jsstring) :
  allDigits s ->
  forall acc,
    readDigits acc s = Some (acc * 10 ^ Z.of_nat (length s) + decimalValue s).
Proof.
  induction 1 as [| c s Hc _ IH]; intros acc.
  - simpl. f_equal. lia.
  - cbn [readDigits decimalValue length]. rewrite Hc, IH, pow10_succ.
    f_equal. ring.
Qed.

Lemma ofString_digits (s : jsstring) :
  digitString s -> ofString s = Normal (decimalValue s).
Proof.
  intros [Hne Hd]. unfold ofString.
  destruct s as [| c s]; [congruence |].
  rewrite (readDigits_value Hd). f_equal.
Qed.

End Numerals.

Section DigitsOf.

Lemma div_mod_10 (n : N) : n = 10 * (n / 10) + n mod 10 /\ n mod 10 < 10.
Proof.
  split; [apply N.div_mod | apply N.mod_upper_bound]; discriminate.
Qed.

Lemma digit_of_small (d : N) : d < 10 -> isDigit (48 + d) = true.
Proof.
  intros Hd. unfold isDigit. rewrite andb_true_iff, !N.leb_le. lia.
Qed.

Lemma decimalValue_single (d : N) : decimalValue [48 + d] = Z.of_N d.
Proof.
  cbn [decimalValue length]. change (10 ^ Z.of_nat 0)%Z with 1%Z. lia.
Qed.

Lemma numeralOf_single (d : N) : d < 10 -> numeralOf (Z.of_N d) [48 + d].
Proof.
  intros Hd. repeat split.
  - discriminate.
  - constructor; [now apply digit_of_small | constructor].
  - apply decimalValue_single.
  - now intros rest [= _ <-].
Qed.

Lemma digitsOf_step (fuel : nat) (n : N) (acc : jsstring) :
  digitsOf (S fuel) n acc
  = if n / 10 =? 0 then (48 + n mod 10) :: acc
    else digitsOf fuel (n / 10) ((48 + n mod 10) :: acc).
Proof. reflexivity. Qed.

(** With one unit of fuel per binary digit of [n], [digitsOf] writes the
    whole numeral of [n] in front of [acc]. *)
Lemma digitsOf_spec (fuel : nat) :
  forall n acc,
    n < 2 ^ N.of_nat fuel ->
    exists ds,
      digitsOf (S fuel) n acc = ds ++ acc
      /\ numeralOf (Z.of_N n) ds
      /\ (forall k, n < 10 ^ N.of_nat (S k) -> (length ds <= S k)%nat).
Proof.
  induction fuel as [| fuel IH]; intros n acc Hn.
  - assert (n = 0) as -> by (change (2 ^ N.of_nat 0) with 1 in Hn; lia).
    exists [48 + 0]. split; [reflexivity | split].
    + now apply (numeralOf_single (d := 0)).
    + intros k _. cbn [length]. lia.
  - rewrite digitsOf_step.
    destruct (div_mod_10 n) as [Hdm Hm].
    rewrite Nat2N.inj_succ, N.pow_succ_r' in Hn.
    specialize (IH (n / 10) ((48 + n mod 10) :: acc)).
    set (q := n / 10) in *. set (d := n mod 10) in *. clearbody q d.
    destruct (q =? 0) eqn:E.
    + apply N.eqb_eq in E. subst q.
      assert (n = d) as -> by lia.
      exists [48 + d]. split; [reflexivity | split].
      * now apply numeralOf_single.
      * intros k _. cbn [length]. lia.
    + apply N.eqb_neq in E.
      destruct IH as (ds & Eds & ((Hne & Hall) & Hval & Hlead) & Hlen);
        [lia |].
      exists (ds ++ [48 + d]). split; [| split; [repeat split |]].
      * rewrite Eds, <- app_assoc. reflexivity.
      * destruct ds; [congruence | discriminate].
      * apply Forall_app. split; [assumption |].
        constructor; [now apply digit_of_small | constructor].
      * rewrite decimalValue_app, Hval, decimalValue_single.
        cbn [length]. change (10 ^ Z.of_nat 1)%Z with 10%Z. lia.
      * intros rest Er. destruct ds as [| c ds]; [congruence |].
        cbn [app] in Er. injection Er as -> <-.
        specialize (Hlead ds eq_refl). subst ds.
        cbn [decimalValue length] in Hval.
        change (10 ^ Z.of_nat 0)%Z with 1%Z in Hval. lia.
      * intros k Hk. rewrite length_app. cbn [length].
        destruct k as [| k].
        { change (10 ^ N.of_nat 1) with 10 in Hk. lia. }
        rewrite (Nat2N.inj_succ (S k)), N.pow_succ_r' in Hk.
        specialize (Hlen k ltac:(lia)). lia.
Qed.

Lemma numeral_spec (n : N) :
  numeralOf (Z.of_N n) (numeral n)
  /\ (forall k, n < 10 ^ N.of_nat (S k) -> (length (numeral n) <= S k)%nat).
Proof.
  unfold numeral.
  destruct (@digitsOf_spec (N.to_nat (N.size n)) n [])
    as (ds & E & Hnum & Hlen).
  - rewrite N2Nat.id. apply N.size_gt.
  - rewrite E, app_nil_r. now split.
Qed.

(** [toString] of a BigInt that is not negative. *)
Lemma toString_nonneg (z : Z) :
  (0 <= z)%Z ->
  numeralOf z (toString z)
  /\ (forall k, (z < 10 ^ Z.of_nat (S k))%Z -> (length (toString z) <= S k)%nat).
Proof.
  intros Hz.
  assert (toString z = numeral (Z.abs_N z)) as ->
    by (destruct z; [reflexivity.. | lia]).
  destruct (numeral_spec (Z.abs_N z)) as [Hnum Hlen].
  rewrite N2Z.inj_abs_N, Z.abs_eq in Hnum by assumption.
  split; [assumption |].
  intros k Hk. apply Hlen.
  apply N2Z.inj_lt. rewrite N2Z.inj_abs_N, Z.abs_eq by assumption.
  rewrite N2Z.inj_pow. simpl Z.of_N at 1. now rewrite nat_N_Z.
Qed.

End DigitsOf.

(** ** The converter *)

Section Converter.

Lemma filler_zeros (n : nat) (cur : jsstring) :
  cur = [] \/ cur = [48] -> filler n [48] cur = repeat 48 n.
Proof.
  revert cur. induction n as [| n IH]; intros cur Hcur; [reflexivity |].
  destruct Hcur as [-> | ->]; cbn [filler repeat]; f_equal; apply IH; now left.
Qed.

Lemma padStart_zeros (ds : jsstring) (k : nat) :
  padStart ds k (lit "0") = repeat 48 (k - length ds) ++ ds.
Proof.
  unfold padStart. change (lit "0") with [48].
  destruct (k <=? length ds)%nat eqn:E.
  - apply Nat.leb_le in E. replace (k - length ds)%nat with 0%nat by lia.
    reflexivity.
  - rewrite filler_zeros by now right. reflexivity.
Qed.

Lemma zeros_value (n : nat) (ds : jsstring) :
  decimalValue (repeat 48 n ++ ds) = decimalValue ds.
Proof.
  induction n as [| n IH]; [reflexivity |].
  cbn [repeat app decimalValue]. rewrite IH. lia.
Qed.

Lemma zeros_digits (n : nat) (ds : jsstring) :
  allDigits ds -> allDigits (repeat 48 n ++ ds).
Proof.
  intros H. apply Forall_app. split; [| assumption].
  apply Forall_forall. intros c Hc. apply repeat_spec in Hc. now subst.
Qed.

Lemma digitClass_member (c : code_unit) :
  inClass [(48, 57)] c <-> isDigit c = true.
Proof.
  unfold inClass, in_ranges, isDigit. simpl. now rewrite orb_false_r.
Qed.

(** [/^\d+$/] accepts the non-empty strings of decimal digits. *)
Lemma digitsPattern_test (s : jsstring) :
  test digitsPattern s = true <-> digitString s.
Proof.
  rewrite test_lang. unfold digitsPattern, digitClass, digitString, allDigits.
  change (N_of_ascii "0") with 48. change (N_of_ascii "9") with 57.
  rewrite lang_class_plus.
  split; intros [Hne H]; (split; [assumption |]); revert H;
    apply Forall_impl; intros c; apply digitClass_member.
Qed.

(** On a string of digits that denotes [V] the converter answers
    [w ++ "." ++ f], where [w] is the numeral of [V / 10^18] and [f] is
    [(V mod 10^18) * 10^5 / 10^18] written with exactly five digits. *)
Lemma weiToEtherFixed5_digits (s : jsstring) :
  digitString s ->
  exists w f,
    weiToEtherFixed5 s = Normal (w ++ lit "." ++ f)
    /\ numeralOf (decimalValue s / 10 ^ 18)%Z w
    /\ length f = 5%nat /\ allDigits f
    /\ decimalValue f = ((decimalValue s mod 10 ^ 18) * 10 ^ 5 / 10 ^ 18)%Z.
Proof.
  intros Hs.
  pose proof (decimalValue_bounds (proj2 Hs)) as [HV _].
  unfold weiToEtherFixed5.
  rewrite (proj2 (digitsPattern_test s) Hs), (ofString_digits Hs).
  cbn [negb bind].
  set (V := decimalValue s) in *.
  assert (HB : (0 < 10 ^ 18)%Z) by reflexivity.
  assert (HK : (10 ^ Z.of_nat 5 = 10 ^ 5)%Z) by reflexivity.
  set (B := (10 ^ 18)%Z) in *. set (K := (10 ^ 5)%Z) in *.
  assert (HK0 : (0 < K)%Z) by reflexivity.
  clearbody V B K.
  pose proof (Z.mod_pos_bound V B HB) as Hr.
  rewrite (Z.rem_mod_nonneg V B), (Z.quot_div_nonneg V B) by lia.
  rewrite (Z.quot_div_nonneg (V mod B * K) B) by nia.
  assert (Hw : (0 <= V / B)%Z) by (apply Z.div_pos; lia).
  assert (Hf : (0 <= V mod B * K / B < K)%Z).
  { split; [apply Z.div_pos; nia |].
    apply Z.div_lt_upper_bound; nia. }
  destruct (toString_nonneg Hw) as [Hnw _].
  destruct (toString_nonneg (proj1 Hf)) as [((_ & Hdf) & Hvf & _) Hlf].
  specialize (Hlf 4%nat). rewrite HK in Hlf. specialize (Hlf (proj2 Hf)).
  set (ds := toString (V mod B * K / B)) in *. clearbody ds.
  exists (toString (V / B)), (padStart ds 5 (lit "0")).
  rewrite padStart_zeros. repeat split; try apply Hnw.
  - rewrite length_app, repeat_length. lia.
  - now apply zeros_digits.
  - now rewrite zeros_value.
Qed.

(** Whatever the input, the converter returns a string: the [BigInt]
    conversion is only reached on strings it accepts. *)
Lemma weiToEtherFixed5_returns (s : jsstring) :
  exists out, weiToEtherFixed5 s = Normal out.
Proof.
  destruct (test digitsPattern s) eqn:E.
  - apply digitsPattern_test in E.
    destruct (weiToEtherFixed5_digits E) as (w & f & -> & _). eauto.
  - unfold weiToEtherFixed5. rewrite E. simpl. eauto.
Qed.

End Converter.

Lemma digits_or_not (s : jsstring) :
  allDigits s \/ Exists (fun c => isDigit c = false) s.
Proof.
  induction s as [| c s IH]; [left; constructor |].
  destruct (isDigit c) eqn:Hc.
  - destruct IH as [IH | IH].
    + left. now constructor.
    + right. now apply Exists_cons_tl.
  - right. now apply Exists_cons_hd.
Qed.

(** The strings that are not [digitString]s: the empty one, and those
    with a character that is not a digit. *)
Lemma not_digitString (s : jsstring) :
  ~ digitString s <-> s = [] \/ Exists (fun c => isDigit c = false) s.
Proof.
  split.
  - intros H. destruct s as [| c s]; [now left |].
    destruct (digits_or_not (c :: s)) as [D | D]; [| now right].
    exfalso. apply H. split; [discriminate | assumption].
  - intros [-> | Hex] [Hne Hall]; [congruence |].
    apply Exists_exists in Hex as (c & Hin & Hc).
    unfold allDigits in Hall. rewrite Forall_forall in Hall.
    specialize (Hall c Hin). congruence.
Qed.

(** C1. On a string of decimal digits that denotes the integer [V], the
    converter returns the numeral of [floor(V / 10^18)], a dot, and
    [floor((V mod 10^18) * 10^5 / 10^18)] written with exactly five digits
    (zero-padded on the left); and ["0"], ["1000000000000000000"] (10^18),
    ["999999999999999999"] (10^18 - 1) and ["1"] yield ["0.00000"],
    ["1.00000"], ["0.99999"] and ["0.00000"]. *)
Theorem weiToEtherFixed5_correct :
  (forall s,
     digitString s ->
     test digitsPattern s = true
     /\ exists w f,
         weiToEtherFixed5 s = Normal (w ++ lit "." ++ f)
         /\ numeralOf (decimalValue s / 10 ^ 18)%Z w
         /\ length f = 5%nat /\ allDigits f
         /\ decimalValue f
            = ((decimalValue s mod 10 ^ 18) * 10 ^ 5 / 10 ^ 18)%Z)
  /\ weiToEtherFixed5 (lit "0") = Normal (lit "0.00000")
  /\ weiToEtherFixed5 (lit "1000000000000000000") = Normal (lit "1.00000")
  /\ weiToEtherFixed5 (lit "999999999999999999") = Normal (lit "0.99999")
  /\ weiToEtherFixed5 (lit "1") = Normal (lit "0.00000").
Proof.
  split.
  - intros s Hs. split.
    + now apply digitsPattern_test.
    + now apply weiToEtherFixed5_digits.
  - repeat split; vm_compute; reflexivity.
Qed.

Lemma digitString_sample : digitString (lit "1234567890123456789012").
Proof.
  split; [discriminate |]. unfold allDigits.
  apply Forall_forall. intros c Hc. simpl in Hc.
  repeat (destruct Hc as [<- | Hc]; [reflexivity |]). contradiction.
Defined.

Lemma weiToEtherFixed5_correct_witness :
  test digitsPattern (lit "1234567890123456789012") = true
  /\ exists w f,
      weiToEtherFixed5 (lit "1234567890123456789012")
      = Normal (w ++ lit "." ++ f)
      /\ numeralOf (decimalValue (lit "1234567890123456789012") / 10 ^ 18)%Z w
      /\ length f = 5%nat /\ allDigits f
      /\ decimalValue f
         = ((decimalValue (lit "1234567890123456789012") mod 10 ^ 18)
            * 10 ^ 5 / 10 ^ 18)%Z.
Proof.
  exact (proj1 weiToEtherFixed5_correct _ digitString_sample).
Defined.

(** C3. On the empty string, and on every string with a character that is
    not a decimal digit (the strings [/^\d+$/] rejects), the converter
    returns ["0.00000"]; it does not throw. *)
Theorem weiToEtherFixed5_malformed (s : jsstring) :
  s = [] \/ Exists (fun c => isDigit c = false) s ->
  test digitsPattern s = false
  /\ weiToEtherFixed5 s = Normal (lit "0.00000").
Proof.
  intros H.
  assert (E : test digitsPattern s = false).
  { destruct (test digitsPattern s) eqn:E; [| reflexivity].
    apply digitsPattern_test in E as [Hne Hall].
    destruct H as [-> | Hex]; [congruence |].
    apply Exists_exists in Hex as (c & Hin & Hc).
    unfold allDigits in Hall. rewrite Forall_forall in Hall.
    specialize (Hall c Hin). congruence. }
  split; [assumption |].
  unfold weiToEtherFixed5. now rewrite E.
Qed.

Lemma weiToEtherFixed5_malformed_witness :
  test digitsPattern (lit "12.5") = false
  /\ weiToEtherFixed5 (lit "12.5") = Normal (lit "0.00000").
Proof.
  apply (@weiToEtherFixed5_malformed (lit "12.5")).
  right. apply Exists_cons_tl, Exists_cons_tl, Exists_cons_hd. reflexivity.
Defined.

Lemma splitAtDot_digits (w f : jsstring) :
  allDigits w -> splitAtDot (w ++ lit "." ++ f) = Some (w, f).
Proof.
  induction 1 as [| c w Hc _ IH]; [reflexivity |].
  cbn [app splitAtDot]. rewrite IH.
  destruct (c =? 46) eqn:E; [| reflexivity].
  apply N.eqb_eq in E. subst c. discriminate.
Qed.

Lemma allDigits_forallb (s : jsstring) :
  allDigits s -> forallb isDigit s = true.
Proof. intros H. apply forallb_forall. now apply Forall_forall. Qed.

(** C4. On a string of digits that denotes [V] the output reads back as an
    exact rational that is at most [V / 10^18], the true balance, and the
    text after its dot is exactly five digits. *)
Theorem weiToEtherFixed5_truncates (s : jsstring) :
  digitString s ->
  exists out w f q,
    weiToEtherFixed5 s = Normal out
    /\ splitAtDot out = Some (w, f)
    /\ length f = 5%nat /\ allDigits f
    /\ parseDecimal out = Some q
    /\ (q <= decimalValue s # 10 ^ 18)%Q.
Proof.
  intros Hs.
  destruct (weiToEtherFixed5_digits Hs)
    as (w & f & E & ((Hwne & Hw) & Hwv & _) & Hlen & Hf & Hfv).
  pose proof (splitAtDot_digits f Hw) as Hsplit.
  exists (w ++ lit "." ++ f), w, f.
  eexists. repeat split; try eassumption.
  - unfold parseDecimal. rewrite Hsplit.
    rewrite (allDigits_forallb Hw), (allDigits_forallb Hf), Hlen.
    destruct w; [congruence | reflexivity].
  - rewrite Hwv, Hfv.
    pose proof (decimalValue_bounds (proj2 Hs)) as [HV _].
    set (V := decimalValue s) in *. clearbody V.
    unfold Qle, Qplus, inject_Z. cbn [Qnum Qden].
    change (Z.pos (Z.to_pos (10 ^ Z.of_nat 5))) with 100000%Z.
    change (Z.pos (1 * Z.to_pos (10 ^ Z.of_nat 5))) with 100000%Z.
    change (Z.pos (10 ^ 18)) with 1000000000000000000%Z.
    change (10 ^ 18)%Z with 1000000000000000000%Z.
    change (10 ^ 5)%Z with 100000%Z.
    change (Z.pos 1) with 1%Z.
    pose proof (Z.div_mod V 1000000000000000000 ltac:(discriminate)) as Hdm.
    pose proof (Z.mul_div_le (V mod 1000000000000000000 * 100000)
                  1000000000000000000 ltac:(reflexivity)) as Hfl.
    set (W := (V / 1000000000000000000)%Z) in *.
    set (R := (V mod 1000000000000000000)%Z) in *.
    set (F := (R * 100000 / 1000000000000000000)%Z) in *.
    clearbody W R F. lia.
Qed.

Lemma weiToEtherFixed5_truncates_witness :
  exists out w f q,
    weiToEtherFixed5 (lit "1234567890123456789012") = Normal out
    /\ splitAtDot out = Some (w, f)
    /\ length f = 5%nat /\ allDigits f
    /\ parseDecimal out = Some q
    /\ (q <= decimalValue (lit "1234567890123456789012") # 10 ^ 18)%Q.
Proof.
  exact (weiToEtherFixed5_truncates digitString_sample).
Defined.

(* ================================================================= *)
(** ** The handler *)

Section Handler.

Variable w : World.

Lemma truthy_nonempty (s : jsstring) : s <> [] -> truthy s = true.
Proof. destruct s; [congruence | reflexivity]. Qed.

Lemma isValidEthAddress_nonempty (a : jsstring) :
  isValidEthAddress a = true -> a <> [].
Proof. intros H ->. discriminate H. Qed.

(** Without a string in [address] the handler stops at its first guard. *)
Lemma POST_not_string (v : value) :
  bodyAddress w v -> typeofString v = false -> POST w = missingAddress.
Proof.
  intros (fields & Ereq & Eaddr) Hty.
  unfold POST, POST_try. rewrite Ereq. cbn [bind destructureAddress].
  rewrite Eaddr, Hty, orb_true_r. reflexivity.
Qed.

(** What the handler makes of the envelope once the upstream call has
    answered. *)
Lemma POST_envelope (data : Envelope) :
  upstreamEnvelope w data ->
  POST w =
  if negb (strictEquals (status data) (lit "1")) || negb (isTruthy (result data))
  then Response_json (ErrorBody (orElse (message data) genericFailure)) (Some 502)
  else match weiToEtherFixed5 (theString (result data)) with
       | Normal balanceEther => Response_json (BalanceBody balanceEther) None
       | Throw => unexpectedError
       end.
Proof.
  intros (a & k & res & (fields & Ereq & Eaddr) & Hvalid & Ekey & Hk
          & Efetch & Hok & Ejson).
  unfold POST, POST_try. rewrite Ereq. cbn [bind destructureAddress].
  rewrite Eaddr. cbn [toBoolean typeofString stringOf].
  rewrite (truthy_nonempty (isValidEthAddress_nonempty Hvalid)), Hvalid, Ekey.
  cbn [isTruthy theString]. rewrite (truthy_nonempty Hk). cbn [negb orb].
  rewrite Efetch. cbn [bind]. rewrite Hok. cbn [negb].
  rewrite Ejson. cbn [bind].
  destruct (_ || _); [reflexivity |].
  destruct (weiToEtherFixed5 _); reflexivity.
Qed.

Lemma sameString_eq (s t : jsstring) : sameString s t = true <-> s = t.
Proof.
  revert t. induction s as [| c s IH]; intros [| d t]; simpl;
    try (split; [discriminate | congruence]); [tauto |].
  rewrite andb_true_iff, N.eqb_eq, IH. split.
  - now intros [-> ->].
  - now intros [= -> ->].
Qed.

End Handler.

Lemma orElse_spec (m : option jsstring) (d : jsstring) :
  orElse m d = match m with Some (c :: rest) => c :: rest | _ => d end.
Proof. destruct m as [[| c rest] |]; reflexivity. Qed.

Lemma sampleWorld_upstream (data : Envelope) :
  upstreamEnvelope
    (sampleWorld (Normal (addressBody sampleAddress)) (answering data)) data.
Proof.
  exists sampleAddress, (lit "KEY"), {| res_status := 200; res_json := Normal data |}.
  repeat split; try reflexivity.
  - eexists. split; reflexivity.
  - discriminate.
Defined.

(** C5, as the specification has it, fails: when the body is absent or is
    not JSON text, [req.json()] rejects, and the handler answers 500
    "Unexpected server error." from its [catch] clause, not 400. *)
Lemma POST_missing_address_counterexample :
  req_json (sampleWorld Throw Throw) = Throw
  /\ POST (sampleWorld Throw Throw) = unexpectedError
  /\ statusCode (POST (sampleWorld Throw Throw)) <> 400
  /\ POST (sampleWorld Throw Throw) <> missingAddress.
Proof. repeat split; vm_compute; discriminate. Qed.

(** C5, amended. When the body parses to an object whose [address] field
    is missing or is not a string, the handler returns status 400 with
    "Missing 'address' in request body."; when the body is absent or
    unparseable ([req.json()] rejects) it returns status 500 with
    "Unexpected server error.". *)
Theorem POST_missing_address (w : World) :
  (forall v,
     bodyAddress w v -> (forall a, v <> Some (JStr a)) ->
     POST w = missingAddress /\ statusCode (POST w) = 400)
  /\ (req_json w = Throw ->
      POST w = unexpectedError /\ statusCode (POST w) = 500).
Proof.
  split.
  - intros v Hbody Hv.
    assert (E : POST w = missingAddress).
    { apply (POST_not_string Hbody).
      destruct v as [[] |]; try reflexivity. now destruct (Hv s). }
    now rewrite E.
  - intros E. unfold POST, POST_try. rewrite E. now split.
Qed.

Lemma POST_missing_address_witness :
  (POST (sampleWorld (Normal (JObj [])) Throw) = missingAddress
   /\ statusCode (POST (sampleWorld (Normal (JObj [])) Throw)) = 400)
  /\ (POST (sampleWorld (Normal (JObj [(lit "address", JNum 7)])) Throw)
      = missingAddress
      /\ statusCode
           (POST (sampleWorld (Normal (JObj [(lit "address", JNum 7)])) Throw))
         = 400)
  /\ (POST (sampleWorld Throw Throw) = unexpectedError
      /\ statusCode (POST (sampleWorld Throw Throw)) = 500).
Proof.
  split; [| split].
  - apply (proj1 (POST_missing_address _) None);
      [exists []; split; reflexivity | discriminate].
  - apply (proj1 (POST_missing_address _) (Some (JNum 7)));
      [eexists; split; reflexivity | discriminate].
  - apply (proj2 (POST_missing_address _)). reflexivity.
Defined.

(** C6, as the specification has it, fails on the empty string: it is a
    string and the validator rejects it, but the handler has already
    answered with the missing-field message. *)
Lemma POST_invalid_address_counterexample :
  bodyAddress (sampleWorld (Normal (addressBody [])) Throw) (Some (JStr []))
  /\ isValidEthAddress [] = false
  /\ POST (sampleWorld (Normal (addressBody [])) Throw) = missingAddress
  /\ POST (sampleWorld (Normal (addressBody [])) Throw) <> invalidAddress.
Proof.
  split; [eexists; split; reflexivity |].
  repeat split. vm_compute. discriminate.
Qed.

(** C6, amended. When the [address] field is a non-empty string that the
    validator rejects, the handler returns status 400 with
    "Invalid Ethereum address format.". *)
Theorem POST_invalid_address (w : World) (a : jsstring) :
  bodyAddress w (Some (JStr a)) -> a <> [] -> isValidEthAddress a = false ->
  POST w = invalidAddress /\ statusCode (POST w) = 400.
Proof.
  intros (fields & Ereq & Eaddr) Hne Hinv.
  assert (E : POST w = invalidAddress).
  { unfold POST, POST_try. rewrite Ereq. cbn [bind destructureAddress].
    rewrite Eaddr. cbn [toBoolean typeofString stringOf].
    rewrite (truthy_nonempty Hne), Hinv. reflexivity. }
  now rewrite E.
Qed.

Lemma POST_invalid_address_witness :
  POST (sampleWorld (Normal (addressBody (lit "not-an-address"))) Throw)
  = invalidAddress
  /\ statusCode
       (POST (sampleWorld (Normal (addressBody (lit "not-an-address"))) Throw))
     = 400.
Proof.
  apply (@POST_invalid_address _ (lit "not-an-address")).
  - eexists. split; reflexivity.
  - discriminate.
  - reflexivity.
Defined.

(** C7, as the specification has it, fails on an envelope whose message is
    the empty string: the handler answers with the generic text, not with
    the envelope's message. *)
Lemma POST_upstream_rejected_counterexample :
  let data := {| status := Some (lit "0"); message := Some []; result := None |} in
  let w := sampleWorld (Normal (addressBody sampleAddress)) (answering data) in
  upstreamEnvelope w data
  /\ status data <> Some (lit "1")
  /\ POST w = Response_json (ErrorBody genericFailure) (Some 502)
  /\ POST w <> Response_json (ErrorBody []) (Some 502).
Proof.
  split; [apply sampleWorld_upstream |].
  repeat split; vm_compute; discriminate.
Qed.

(** C7, amended. After a success transport status, when the envelope's
    status is not ["1"] or its result is missing, the handler returns
    status 502 with the envelope's message, or with
    "Failed to retrieve balance from Etherscan." when the envelope has no
    message or an empty one. *)
Theorem POST_upstream_rejected (w : World) (data : Envelope) :
  upstreamEnvelope w data ->
  status data <> Some (lit "1") \/ result data = None ->
  POST w =
  Response_json
    (ErrorBody (match message data with
                | Some (c :: rest) => c :: rest
                | _ => genericFailure
                end))
    (Some 502)
  /\ statusCode (POST w) = 502.
Proof.
  intros Hup Hrej.
  rewrite (POST_envelope Hup), orElse_spec.
  assert (negb (strictEquals (status data) (lit "1"))
          || negb (isTruthy (result data)) = true) as ->; [| now split].
  apply orb_true_iff. destruct Hrej as [Hs | ->]; [left | now right].
  destruct (status data) as [s |]; [| reflexivity].
  cbn [strictEquals].
  destruct (sameString s (lit "1")) eqn:E; [| reflexivity].
  apply sameString_eq in E. congruence.
Qed.

Lemma POST_upstream_rejected_witness :
  let data := {| status := Some (lit "0");
                 message := Some (lit "NOTOK");
                 result := Some (lit "Max rate limit reached") |} in
  let w := sampleWorld (Normal (addressBody sampleAddress)) (answering data) in
  POST w = Response_json (ErrorBody (lit "NOTOK")) (Some 502)
  /\ statusCode (POST w) = 502.
Proof.
  intros data w.
  apply (@POST_upstream_rejected w data).
  - apply sampleWorld_upstream.
  - left. discriminate.
Defined.

(** C8, as the specification has it, fails on an envelope whose status is
    ["1"] and whose result is the empty string: the result is there, yet
    the handler answers 502 and converts nothing. *)
Lemma POST_success_counterexample :
  let data := {| status := Some (lit "1"); message := Some (lit "OK");
                 result := Some [] |} in
  let w := sampleWorld (Normal (addressBody sampleAddress)) (answering data) in
  upstreamEnvelope w data
  /\ weiToEtherFixed5 [] = Normal (lit "0.00000")
  /\ POST w = Response_json (ErrorBody (lit "OK")) (Some 502)
  /\ statusCode (POST w) <> 200
  /\ POST w <> Response_json (BalanceBody (lit "0.00000")) None.
Proof.
  split; [apply sampleWorld_upstream |].
  repeat split; vm_compute; discriminate.
Qed.

(** C8, amended. With a valid address, a non-empty credential, a success
    transport status and an envelope whose status is ["1"] and whose
    result is a non-empty string, the handler returns status 200 with
    [{balanceEther: weiToEtherFixed5(result)}]; the result
    ["1000000000000000000"] gives [{balanceEther: "1.00000"}]. *)
Theorem POST_success (w : World) (data : Envelope) (r : jsstring) :
  upstreamEnvelope w data ->
  status data = Some (lit "1") -> result data = Some r -> r <> [] ->
  (exists balanceEther,
     weiToEtherFixed5 r = Normal balanceEther
     /\ POST w = Response_json (BalanceBody balanceEther) None
     /\ statusCode (POST w) = 200)
  /\ (r = lit "1000000000000000000" ->
      POST w = Response_json (BalanceBody (lit "1.00000")) None).
Proof.
  intros Hup Hs Hr Hne.
  assert (E : forall b, weiToEtherFixed5 r = Normal b ->
                        POST w = Response_json (BalanceBody b) None).
  { intros b Hb. rewrite (POST_envelope Hup), Hs, Hr.
    cbn [isTruthy theString]. now rewrite Hb, (truthy_nonempty Hne). }
  split.
  - destruct (weiToEtherFixed5_returns r) as [b Hb].
    exists b. rewrite (E b Hb). now repeat split.
  - intros ->. now apply E.
Qed.

Lemma POST_success_witness :
  let data := {| status := Some (lit "1"); message := Some (lit "OK");
                 result := Some (lit "1000000000000000000") |} in
  let w := sampleWorld (Normal (addressBody sampleAddress)) (answering data) in
  (exists balanceEther,
     weiToEtherFixed5 (lit "1000000000000000000") = Normal balanceEther
     /\ POST w = Response_json (BalanceBody balanceEther) None
     /\ statusCode (POST w) = 200)
  /\ (lit "1000000000000000000" = lit "1000000000000000000" ->
      POST w = Response_json (BalanceBody (lit "1.00000")) None).
Proof.
  intros data w.
  apply (@POST_success w data (lit "1000000000000000000")).
  - apply sampleWorld_upstream.
  - reflexivity.
  - reflexivity.
  - discriminate.
Defined.

(** C9. When the [address] field is the empty string, the handler returns
    status 400 with "Missing 'address' in request body." and not the
    invalid-format message: the empty string is falsy in the presence
    check. *)
Theorem POST_empty_address (w : World) :
  bodyAddress w (Some (JStr [])) ->
  toBoolean (Some (JStr [])) = false
  /\ POST w = missingAddress
  /\ statusCode (POST w) = 400
  /\ POST w <> invalidAddress.
Proof.
  intros (fields & Ereq & Eaddr).
  assert (E : POST w = missingAddress).
  { unfold POST, POST_try. rewrite Ereq. cbn [bind destructureAddress].
    rewrite Eaddr. reflexivity. }
  rewrite E. repeat split. vm_compute. discriminate.
Qed.

Lemma POST_empty_address_witness :
  toBoolean (Some (JStr [])) = false
  /\ POST (sampleWorld (Normal (addressBody [])) Throw) = missingAddress
  /\ statusCode (POST (sampleWorld (Normal (addressBody [])) Throw)) = 400
  /\ POST (sampleWorld (Normal (addressBody [])) Throw) <> invalidAddress.
Proof.
  apply (@POST_empty_address (sampleWorld (Normal (addressBody [])) Throw)).
  eexists. split; reflexivity.
Defined.

(** C10. After a success transport status, an envelope whose status is
    ["1"] and whose result is the empty string is an upstream rejection:
    the handler returns status 502 with the envelope's message, or the
    generic failure text when there is none, and does not return the
    ["0.00000"] the converter makes of the empty string. *)
Theorem POST_empty_result (w : World) (data : Envelope) :
  upstreamEnvelope w data ->
  status data = Some (lit "1") -> result data = Some [] ->
  POST w =
  Response_json
    (ErrorBody (match message data with
                | Some (c :: rest) => c :: rest
                | _ => genericFailure
                end))
    (Some 502)
  /\ statusCode (POST w) = 502
  /\ weiToEtherFixed5 [] = Normal (lit "0.00000")
  /\ POST w <> Response_json (BalanceBody (lit "0.00000")) None.
Proof.
  intros Hup Hs Hr.
  rewrite (POST_envelope Hup), Hs, Hr, orElse_spec.
  repeat split. discriminate.
Qed.

Lemma POST_empty_result_witness :
  let data := {| status := Some (lit "1"); message := None;
                 result := Some [] |} in
  let w := sampleWorld (Normal (addressBody sampleAddress)) (answering data) in
  POST w = Response_json (ErrorBody genericFailure) (Some 502)
  /\ statusCode (POST w) = 502
  /\ weiToEtherFixed5 [] = Normal (lit "0.00000")
  /\ POST w <> Response_json (BalanceBody (lit "0.00000")) None.
Proof.
  intros data w.
  apply (@POST_empty_result w data).
  - apply sampleWorld_upstream.
  - reflexivity.
  - reflexivity.
Defined.

(* ================================================================= *)
(** ** Sample runs *)

Example trim_sample :
  trim ([160; 9] ++ lit "ab c" ++ [10; 8232; 65279]) = lit "ab c".
Proof. reflexivity. Qed.

Example padStart_sample : padStart (lit "7") 4 (lit "ab") = lit "aba7".
Proof. reflexivity. Qed.

Example isValidEthAddress_samples :
  isValidEthAddress sampleAddress = true
  /\ isValidEthAddress (lit "  " ++ sampleAddress ++ [10]) = true
  /\ isValidEthAddress (lit "0Xde0B295669a9FD93d5F28D9Ec85E40f4cb697BAe") = false
  /\ isValidEthAddress (lit "0xde0B295669a9FD93d5F28D9Ec85E40f4cb697BA") = false
  /\ isValidEthAddress (lit "0xde0B295669a9FD93d5F28D9Ec85E40f4cb697BAe0") = false
  /\ isValidEthAddress (lit "0xge0B295669a9FD93d5F28D9Ec85E40f4cb697BAe") = false
  /\ isValidEthAddress (lit "not-an-address") = false.
Proof. repeat split; vm_compute; reflexivity. Qed.

Example weiToEtherFixed5_samples :
  weiToEtherFixed5 (lit "1234567890123456789012") = Normal (lit "1234.56789")
  /\ weiToEtherFixed5 (lit "007") = Normal (lit "0.00000")
  /\ weiToEtherFixed5 (lit "10000000000000") = Normal (lit "0.00001")
  /\ weiToEtherFixed5 (lit "-5") = Normal (lit "0.00000")
  /\ weiToEtherFixed5 (lit "12" ++ [10]) = Normal (lit "0.00000").
Proof. repeat split; vm_compute; reflexivity. Qed.

Example balanceUrl_sample :
  searchParams (balanceUrl sampleAddress (lit "KEY"))
  = [(lit "module", lit "account"); (lit "action", lit "balance");
     (lit "address", sampleAddress); (lit "tag", lit "latest");
     (lit "apikey", lit "KEY")].
Proof. vm_compute. reflexivity. Qed.

Example POST_samples :
  (* the body is JSON [null] *)
  POST (sampleWorld (Normal JNull) Throw) = unexpectedError
  (* the body is a JSON array *)
  /\ POST (sampleWorld (Normal (JArr [JStr sampleAddress])) Throw) = missingAddress
  (* no credential *)
  /\ POST {| req_json := Normal (addressBody sampleAddress);
             ETHERSCAN_API_KEY := None;
             fetch := fun _ => Throw |}
     = Response_json
         (ErrorBody (lit "Server misconfiguration: ETHERSCAN_API_KEY is not set."))
         (Some 500)
  (* the network fails *)
  /\ POST (sampleWorld (Normal (addressBody sampleAddress)) Throw) = unexpectedError
  (* the upstream answers 503 *)
  /\ POST (sampleWorld (Normal (addressBody sampleAddress))
             (Normal {| res_status := 503; res_json := Throw |}))
     = Response_json
         (ErrorBody (lit "Etherscan request failed with status 503."))
         (Some 502)
  (* the upstream body is not JSON *)
  /\ POST (sampleWorld (Normal (addressBody sampleAddress))
             (Normal {| res_status := 200; res_json := Throw |}))
     = unexpectedError.
Proof. repeat split; vm_compute; reflexivity. Qed.

(* ================================================================= *)
(** * Further properties of the route *)

(** ** The paths of the handler *)

Section Paths.

Variable w : World.

Lemma destructureAddress_string (parsed : json) (a : jsstring) :
  req_json w = Normal parsed ->
  destructureAddress parsed = Normal (Some (JStr a)) ->
  bodyAddress w (Some (JStr a)).
Proof.
  intros Ereq Ed. destruct parsed; try discriminate.
  injection Ed as Ed. now exists fields.
Qed.

Lemma truthy_true (s : jsstring) : truthy s = true -> s <> [].
Proof. intros H ->. discriminate. Qed.

(** [POST] takes one of the ten paths. *)
Lemma POST_handles : handles w (POST w).
Proof.
  unfold POST, POST_try.
  destruct (req_json w) as [parsed |] eqn:Ereq; cbn [bind];
    [| now apply handles_no_body].
  destruct (destructureAddress parsed) as [v |] eqn:Ed; cbn [bind].
  2:{ destruct parsed; try discriminate. now apply handles_null_body. }
  destruct (toBoolean v) eqn:Etb; cbn [negb orb].
  2:{ apply (handles_missing _ Ereq Ed). now left. }
  destruct (typeofString v) eqn:Ety; cbn [negb].
  2:{ apply (handles_missing _ Ereq Ed). now right. }
  destruct v as [[| | | a | |] |]; try discriminate. cbn [stringOf].
  pose proof (destructureAddress_string Ereq Ed) as Hbody.
  pose proof (@truthy_true a Etb) as Hne.
  destruct (isValidEthAddress a) eqn:Ev; cbn [negb];
    [| now apply (handles_invalid Hbody)].
  destruct (isTruthy (ETHERSCAN_API_KEY w)) eqn:Ek; cbn [negb];
    [| now apply (handles_misconfigured Hbody)].
  destruct (ETHERSCAN_API_KEY w) as [k |] eqn:Ekey; [| discriminate].
  cbn [isTruthy theString] in *.
  assert (Hkeyed : keyed w a k)
    by (repeat split; trivial; now apply truthy_true).
  destruct (fetch w (balanceUrl a k)) as [res |] eqn:Ef; cbn [bind];
    [| now apply (handles_network Hkeyed)].
  destruct (ok res) eqn:Eok; cbn [negb];
    [| now apply (handles_transport Hkeyed Ef)].
  destruct (res_json res) as [data |] eqn:Ej; cbn [bind];
    [| now apply (handles_garbled Hkeyed Ef)].
  assert (Hup : upstreamEnvelope w data).
  { destruct Hkeyed as (? & ? & ? & ?). exists a, k, res. now repeat split. }
  destruct (strictEquals (status data) (lit "1")) eqn:Es; cbn [negb orb];
    [| apply (handles_rejected Hup); now left].
  destruct (isTruthy (result data)) eqn:Er; cbn [negb];
    [| apply (handles_rejected Hup); now right].
  destruct (status data) as [s |] eqn:Est; [| discriminate].
  destruct (result data) as [r |] eqn:Eres; [| discriminate].
  cbn [strictEquals isTruthy theString] in *.
  apply sameString_eq in Es. subst s.
  destruct (weiToEtherFixed5_returns r) as [b Eb]. rewrite Eb. cbn [bind].
  apply (handles_success Hup Est Eres (@truthy_true r Er) Eb).
Qed.

(** Each path ends in the response of [POST]. *)
Lemma handles_POST (r : Response) : handles w r -> r = POST w.
Proof.
  assert (Hkeyed : forall a k, keyed w a k ->
            POST w = match fetch w (balanceUrl a k) with
                     | Normal res =>
                         if ok res then
                           match res_json res with
                           | Normal data =>
                               match POST_try w with
                               | Normal response => response
                               | Throw => unexpectedError
                               end
                           | Throw => unexpectedError
                           end
                         else transportFailure (res_status res)
                     | Throw => unexpectedError
                     end).
  { intros a k ((fields & Ereq & Eaddr) & Hv & Ekey & Hk).
    unfold POST at 1. unfold POST_try.
    rewrite Ereq. cbn [bind destructureAddress].
    rewrite Eaddr. cbn [toBoolean typeofString stringOf].
    rewrite (truthy_nonempty (isValidEthAddress_nonempty Hv)), Hv, Ekey.
    cbn [isTruthy theString]. rewrite (truthy_nonempty Hk). cbn [negb orb].
    destruct (fetch w (balanceUrl a k)) as [res |]; cbn [bind]; [| reflexivity].
    destruct (ok res); cbn [negb]; [| reflexivity].
    destruct (res_json res) as [data |]; cbn [bind]; reflexivity. }
  intros H. destruct H as
    [Ereq | Ereq | parsed v Ereq Ed Hv | a Hbody Hne Hinv | a Hbody Hv Hk
     | a k Hk Ef | a k res Hk Ef Eok | a k res Hk Ef Eok Ej
     | data Hup Hrej | data r b Hup Es Er Hne Eb].
  - unfold POST, POST_try. now rewrite Ereq.
  - unfold POST, POST_try. now rewrite Ereq.
  - unfold POST, POST_try. rewrite Ereq. cbn [bind]. rewrite Ed. cbn [bind].
    destruct Hv as [-> | ->]; [reflexivity | now rewrite orb_true_r].
  - destruct Hbody as (fields & Ereq & Eaddr).
    unfold POST, POST_try. rewrite Ereq. cbn [bind destructureAddress].
    rewrite Eaddr. cbn [toBoolean typeofString stringOf].
    now rewrite (truthy_nonempty Hne), Hinv.
  - destruct Hbody as (fields & Ereq & Eaddr).
    unfold POST, POST_try. rewrite Ereq. cbn [bind destructureAddress].
    rewrite Eaddr. cbn [toBoolean typeofString stringOf].
    now rewrite (truthy_nonempty (isValidEthAddress_nonempty Hv)), Hv, Hk.
  - now rewrite (Hkeyed _ _ Hk), Ef.
  - now rewrite (Hkeyed _ _ Hk), Ef, Eok.
  - now rewrite (Hkeyed _ _ Hk), Ef, Eok, Ej.
  - rewrite (POST_envelope Hup).
    destruct Hrej as [-> | ->]; [reflexivity | now rewrite orb_true_r].
  - rewrite (POST_envelope Hup), Es, Er.
    cbn [strictEquals isTruthy theString].
    rewrite (proj2 (sameString_eq _ _) eq_refl), (truthy_nonempty Hne), Eb.
    reflexivity.
Qed.

End Paths.

(** ** What every response looks like *)



(** The converter answers a formatted balance whatever it is given. *)
Lemma weiToEtherFixed5_any (s : jsstring) :
  exists b, weiToEtherFixed5 s = Normal b /\ formatted b.
Proof.
  destruct (test digitsPattern s) eqn:E.
  - apply digitsPattern_test in E.
    destruct (weiToEtherFixed5_digits E) as (w & f & Eout & Hw & Hlen & Hf & _).
    exists (w ++ lit "." ++ f). split; [assumption |].
    now exists (decimalValue s / 10 ^ 18)%Z, w, f.
  - unfold weiToEtherFixed5. rewrite E. cbn [negb].
    exists (lit "0.00000"). split; [reflexivity |].
    exists 0%Z, (lit "0"), (lit "00000"). repeat split.
    + discriminate.
    + now repeat constructor.
    + now intros rest [= <-].
    + now repeat constructor.
Qed.


(** X2. The balance of a 200 response is always a formatted balance: a
    decimal numeral without a leading zero, a dot and exactly five digits,
    whatever the upstream sent as its result. *)
Theorem POST_balance_formatted (w : World) (b : jsstring) :
  body (POST w) = BalanceBody b -> formatted b /\ statusCode (POST w) = 200.
Proof.
  generalize (POST_handles w). generalize (POST w). intros r H E.
  destruct H; try discriminate E.
  cbn in E. injection E as <-. split; [| reflexivity].
  match goal with
  | Hc : weiToEtherFixed5 ?r = Normal _ |- _ =>
      destruct (weiToEtherFixed5_any r) as (b' & Eb & Hb);
      rewrite Hc in Eb; now injection Eb as ->
  end.
Qed.

Lemma POST_balance_formatted_witness :
  formatted (lit "0.00000")
  /\ statusCode
       (POST (sampleWorld (Normal (addressBody sampleAddress))
                (answering {| status := Some (lit "1"); message := None;
                              result := Some (lit "n/a") |})))
     = 200.
Proof.
  apply (@POST_balance_formatted
           (sampleWorld (Normal (addressBody sampleAddress))
              (answering {| status := Some (lit "1"); message := None;
                            result := Some (lit "n/a") |}))).
  reflexivity.
Defined.

(** ** The paths the claims leave out *)

(** X3. A body that parses to something other than [null] and other than
    an object (an array, a string, a number, a boolean) has no address:
    the handler returns 400 with the missing-field message. *)
Theorem POST_non_object_body (w : World) (parsed : json) :
  req_json w = Normal parsed ->
  parsed <> JNull -> (forall fields, parsed <> JObj fields) ->
  POST w = missingAddress.
Proof.
  intros Ereq Hnull Hobj. symmetry. apply handles_POST.
  apply (@handles_missing w parsed None Ereq); [| now left].
  destruct parsed; try reflexivity; [congruence | now destruct (Hobj fields)].
Qed.

Lemma POST_non_object_body_witness :
  POST (sampleWorld (Normal (JArr [JStr sampleAddress])) Throw)
  = missingAddress.
Proof.
  apply (@POST_non_object_body
           (sampleWorld (Normal (JArr [JStr sampleAddress])) Throw)
           (JArr [JStr sampleAddress])).
  - reflexivity.
  - discriminate.
  - discriminate.
Defined.

(** X4. With a valid address and no credential ([ETHERSCAN_API_KEY] unset
    or empty) the handler returns 500 with the misconfiguration message,
    whatever the network would answer. *)
Theorem POST_no_credential (w : World) (a : jsstring) :
  bodyAddress w (Some (JStr a)) -> isValidEthAddress a = true ->
  ETHERSCAN_API_KEY w = None \/ ETHERSCAN_API_KEY w = Some [] ->
  forall f, POST (withFetch w f) = misconfigured
            /\ statusCode (POST (withFetch w f)) = 500.
Proof.
  intros Hbody Hv Hk f.
  assert (E : POST (withFetch w f) = misconfigured).
  { symmetry. apply handles_POST.
    apply (@handles_misconfigured (withFetch w f) a); trivial.
    cbn [withFetch ETHERSCAN_API_KEY]. now destruct Hk as [-> | ->]. }
  now rewrite E.
Qed.

Lemma POST_no_credential_witness :
  POST (withFetch
          {| req_json := Normal (addressBody sampleAddress);
             ETHERSCAN_API_KEY := Some [];
             fetch := fun _ => Throw |}
          (fun _ => answering {| status := Some (lit "1"); message := None;
                                 result := Some (lit "5") |}))
  = misconfigured
  /\ statusCode
       (POST (withFetch
                {| req_json := Normal (addressBody sampleAddress);
                   ETHERSCAN_API_KEY := Some [];
                   fetch := fun _ => Throw |}
                (fun _ => answering {| status := Some (lit "1");
                                       message := None;
                                       result := Some (lit "5") |})))
     = 500.
Proof.
  apply (@POST_no_credential
           {| req_json := Normal (addressBody sampleAddress);
              ETHERSCAN_API_KEY := Some [];
              fetch := fun _ => Throw |}
           sampleAddress).
  - eexists. split; reflexivity.
  - reflexivity.
  - now right.
Defined.

(** X5. When the upstream answers with a transport status outside
    200-299, the handler returns 502 and its message quotes that status as
    a decimal numeral; the body of the upstream answer is not read. *)
Theorem POST_transport_failure (w : World) (a k : jsstring)
    (res : FetchResponse) :
  keyed w a k -> fetch w (balanceUrl a k) = Normal res ->
  res_status res < 200 \/ 299 < res_status res ->
  exists digits,
    POST w =
    Response_json
      (ErrorBody (lit "Etherscan request failed with status "
                  ++ digits ++ lit "."))
      (Some 502)
    /\ numeralOf (Z.of_N (res_status res)) digits.
Proof.
  intros Hk Ef Hst.
  exists (numeral (res_status res)). split; [| apply numeral_spec].
  symmetry. apply handles_POST.
  apply (handles_transport Hk Ef).
  unfold ok. apply andb_false_iff.
  destruct Hst; [left; now apply N.leb_gt | right; now apply N.leb_gt].
Qed.

Lemma POST_transport_failure_witness :
  exists digits,
    POST (sampleWorld (Normal (addressBody sampleAddress))
            (Normal {| res_status := 503; res_json := Throw |}))
    = Response_json
        (ErrorBody (lit "Etherscan request failed with status "
                    ++ digits ++ lit "."))
        (Some 502)
    /\ numeralOf 503%Z digits.
Proof.
  apply (@POST_transport_failure
           (sampleWorld (Normal (addressBody sampleAddress))
              (Normal {| res_status := 503; res_json := Throw |}))
           sampleAddress (lit "KEY")
           {| res_status := 503; res_json := Throw |}).
  - repeat split; try reflexivity; [eexists; split; reflexivity | discriminate].
  - reflexivity.
  - right. reflexivity.
Defined.





(* ================================================================= *)
(** * Further properties of the validator *)

Section Padding.

Lemma trimStart_blanks (l s : jsstring) :
  Forall blank l -> trimStart (l ++ s) = trimStart s.
Proof.
  induction 1 as [| c l Hc _ IH]; [reflexivity |].
  cbn [app trimStart]. now rewrite Hc.
Qed.

Lemma trimStart_app (s r : jsstring) :
  trimStart (s ++ r)
  = match trimStart s with
    | [] => trimStart r
    | _ => trimStart s ++ r
    end.
Proof.
  induction s as [| c s IH]; cbn [app trimStart].
  - now destruct (trimStart r).
  - destruct (isWhiteSpace c); [assumption | reflexivity].
Qed.

Lemma trimEnd_blanks (s r : jsstring) :
  Forall blank r -> trimEnd (s ++ r) = trimEnd s.
Proof.
  intros Hr. unfold trimEnd. rewrite rev_app_distr.
  rewrite trimStart_blanks; [reflexivity | now apply Forall_rev].
Qed.

Lemma trimEnd_app (a b : jsstring) :
  trimEnd (a ++ b)
  = match trimEnd b with
    | [] => trimEnd a
    | _ => a ++ trimEnd b
    end.
Proof.
  unfold trimEnd. rewrite rev_app_distr, trimStart_app.
  destruct (trimStart (rev b)) as [| c t] eqn:E; [reflexivity |].
  rewrite rev_app_distr, rev_involutive.
  destruct (rev (c :: t)) eqn:E'; [| reflexivity].
  apply (f_equal (@rev N)) in E'. rewrite rev_involutive in E'. discriminate.
Qed.

Lemma trim_padding (l s r : jsstring) :
  Forall blank l -> Forall blank r -> trim (l ++ s ++ r) = trim s.
Proof.
  intros Hl Hr. unfold trim.
  rewrite (trimStart_blanks _ Hl), trimStart_app.
  destruct (trimStart s) as [| c t] eqn:E.
  - destruct (trimStart_split r) as (l' & Er & _).
    assert (trimStart r = []) as ->; [| reflexivity].
    clear Er l'. induction Hr as [| d r Hd _ IH]; [reflexivity |].
    cbn [trimStart]. now rewrite Hd.
  - now apply trimEnd_blanks.
Qed.

End Padding.

(** X9. White space around an address does not matter to the validator:
    padding a string with white space at either end leaves its trimmed
    form and the verdict unchanged, and trimming twice is trimming
    once. *)
Theorem isValidEthAddress_padding (l s r : jsstring) :
  Forall blank l -> Forall blank r ->
  trim (l ++ s ++ r) = trim s
  /\ isValidEthAddress (l ++ s ++ r) = isValidEthAddress s
  /\ trim (trim s) = trim s
  /\ isValidEthAddress (trim s) = isValidEthAddress s.
Proof.
  intros Hl Hr.
  assert (Hidem : trim (trim s) = trim s).
  { destruct (trim_spec s) as ((l' & r' & E & Hl' & Hr') & _).
    rewrite E at 2. symmetry. now apply trim_padding. }
  unfold isValidEthAddress. rewrite Hidem, (trim_padding s Hl Hr).
  now repeat split.
Qed.

Lemma isValidEthAddress_padding_witness :
  trim ([9; 32] ++ sampleAddress ++ [13; 10]) = trim sampleAddress
  /\ isValidEthAddress ([9; 32] ++ sampleAddress ++ [13; 10])
     = isValidEthAddress sampleAddress
  /\ trim (trim sampleAddress) = trim sampleAddress
  /\ isValidEthAddress (trim sampleAddress) = isValidEthAddress sampleAddress.
Proof.
  apply (@isValidEthAddress_padding [9; 32] sampleAddress [13; 10]).
  - repeat constructor.
  - repeat constructor.
Defined.

Section LetterCase.

Lemma isWhiteSpace_iff (c : code_unit) :
  isWhiteSpace c = true <->
  9 <= c <= 13 \/ c = 32 \/ c = 160 \/ c = 5760 \/ 8192 <= c <= 8202
  \/ c = 8232 \/ c = 8233 \/ c = 8239 \/ c = 8287 \/ c = 12288 \/ c = 65279.
Proof.
  unfold isWhiteSpace.
  rewrite !orb_true_iff, !andb_true_iff, !N.leb_le, !N.eqb_eq. tauto.
Qed.

Lemma isHexDigit_iff (c : code_unit) :
  isHexDigit c = true <-> 48 <= c <= 57 \/ 97 <= c <= 102 \/ 65 <= c <= 70.
Proof.
  unfold isHexDigit.
  rewrite !orb_true_iff, !andb_true_iff, !N.leb_le. tauto.
Qed.

Lemma asciiLower_cases (c : code_unit) :
  (65 <= c <= 90 /\ asciiLower c = c + 32)
  \/ ((c < 65 \/ 90 < c) /\ asciiLower c = c).
Proof.
  unfold asciiLower.
  destruct (N.leb_spec 65 c), (N.leb_spec c 90); cbn [andb]; lia.
Qed.

Lemma asciiLower_blank (c : code_unit) :
  isWhiteSpace (asciiLower c) = isWhiteSpace c.
Proof.
  apply eq_true_iff_eq. rewrite !isWhiteSpace_iff.
  destruct (asciiLower_cases c) as [[H ->] | [H ->]]; lia.
Qed.

Lemma asciiLower_hex (c : code_unit) :
  isHexDigit (asciiLower c) = isHexDigit c.
Proof.
  apply eq_true_iff_eq. rewrite !isHexDigit_iff.
  destruct (asciiLower_cases c) as [[H ->] | [H ->]]; lia.
Qed.

Lemma trimStart_lower (s : jsstring) :
  trimStart (map asciiLower s) = map asciiLower (trimStart s).
Proof.
  induction s as [| c s IH]; [reflexivity |].
  cbn [map trimStart]. rewrite asciiLower_blank.
  destruct (isWhiteSpace c); [assumption | reflexivity].
Qed.

Lemma trimEnd_lower (s : jsstring) :
  trimEnd (map asciiLower s) = map asciiLower (trimEnd s).
Proof.
  unfold trimEnd. now rewrite <- map_rev, trimStart_lower, map_rev.
Qed.

(** After a two-character prefix that is not white space, trimming only
    touches the end of the rest. *)
Lemma trim_prefixed (c d : code_unit) (h : jsstring) :
  isWhiteSpace c = false -> isWhiteSpace d = false ->
  trim (c :: d :: h) = c :: d :: trimEnd h.
Proof.
  intros Hc Hd. unfold trim. cbn [trimStart]. rewrite Hc.
  change (c :: d :: h) with ([c; d] ++ h). rewrite trimEnd_app.
  destruct (trimEnd h); [| reflexivity].
  unfold trimEnd. cbn [rev app trimStart]. now rewrite Hd.
Qed.

Lemma address_digits (h : jsstring) :
  test addressPattern (lit "0x" ++ h) = true <->
  length h = 40%nat /\ Forall (fun c => isHexDigit c = true) h.
Proof.
  rewrite test_lang, addressPattern_lang. split.
  - intros (h0 & E & Hlen & Hall). apply app_inv_head in E. now subst.
  - intros [Hlen Hall]. now exists h.
Qed.

End LetterCase.

(** X10. The validator is case-insensitive in the forty digits and
    case-sensitive in the prefix: lower-casing the letters after ["0x"]
    does not change the verdict, and nothing that starts with ["0X"] is
    accepted. *)
Theorem isValidEthAddress_letter_case (h : jsstring) :
  isValidEthAddress (lit "0x" ++ map asciiLower h)
  = isValidEthAddress (lit "0x" ++ h)
  /\ isValidEthAddress (lit "0X" ++ h) = false.
Proof.
  unfold isValidEthAddress. split.
  - change (lit "0x" ++ map asciiLower h) with (48 :: 120 :: map asciiLower h).
    change (lit "0x" ++ h) with (48 :: 120 :: h).
    rewrite !trim_prefixed, trimEnd_lower by reflexivity.
    apply eq_true_iff_eq.
    change (48 :: 120 :: ?t) with (lit "0x" ++ t).
    rewrite !address_digits, length_map, Forall_map.
    split; intros [Hlen Hall]; (split; [assumption |]); revert Hall;
      apply Forall_impl; intros c; now rewrite asciiLower_hex.
  - change (lit "0X" ++ h) with (48 :: 88 :: h).
    rewrite trim_prefixed by reflexivity.
    destruct (test addressPattern (48 :: 88 :: trimEnd h)) eqn:E;
      [| reflexivity].
    apply test_lang, addressPattern_lang in E as (h0 & E & _).
    discriminate E.
Qed.

(* ================================================================= *)
(** * Further properties of the converter *)

Section Truncation.

Local Open Scope Z_scope.

(** The whole part and the five decimals together are the balance in
    units of 10^13 wei. *)
Lemma whole_and_decimals (V : Z) :
  0 <= V ->
  V / 10 ^ 18 * 10 ^ 5 + V mod 10 ^ 18 * 10 ^ 5 / 10 ^ 18 = V / 10 ^ 13.
Proof.
  intros HV.
  change (10 ^ 18) with 1000000000000000000.
  change (10 ^ 13) with 10000000000000.
  change (10 ^ 5) with 100000.
  pose proof (Z.div_mod V 1000000000000000000 ltac:(discriminate)) as H18.
  pose proof (Z.mod_pos_bound V 1000000000000000000 ltac:(reflexivity)) as B18.
  set (W := V / 1000000000000000000) in *.
  set (R := V mod 1000000000000000000) in *.
  pose proof (Z.div_mod (R * 100000) 1000000000000000000 ltac:(discriminate)) as HF.
  pose proof (Z.mod_pos_bound (R * 100000) 1000000000000000000 ltac:(reflexivity)) as BF.
  set (F := R * 100000 / 1000000000000000000) in *.
  set (rF := (R * 100000) mod 1000000000000000000) in *.
  clearbody W R F rF.
  apply (Z.div_unique V 10000000000000 (W * 100000 + F)
           (V - 10000000000000 * (W * 100000 + F))); lia.
Qed.

End Truncation.

Lemma Normal_inj (A : Type) (a b : A) : Normal a = Normal b -> a = b.
Proof. now intros [= ->]. Qed.

(** What the converter computes on a string of digits. *)
Lemma weiToEtherFixed5_formula (s : jsstring) :
  digitString s ->
  weiToEtherFixed5 s
  = Normal (toString (decimalValue s / 10 ^ 18)%Z ++ lit "."
            ++ padStart
                 (toString (decimalValue s mod 10 ^ 18 * 10 ^ 5 / 10 ^ 18)%Z)
                 5 (lit "0")).
Proof.
  intros Hs.
  pose proof (decimalValue_bounds (proj2 Hs)) as [HV _].
  unfold weiToEtherFixed5.
  rewrite (proj2 (digitsPattern_test s) Hs), (ofString_digits Hs).
  cbn [negb bind].
  set (V := decimalValue s) in *.
  assert (HB : (0 < 10 ^ 18)%Z) by reflexivity.
  set (B := (10 ^ 18)%Z) in *. set (K := (10 ^ 5)%Z) in *.
  assert (HK0 : (0 < K)%Z) by reflexivity.
  clearbody V B K.
  pose proof (Z.mod_pos_bound V B HB) as Hr.
  rewrite (Z.rem_mod_nonneg V B), (Z.quot_div_nonneg V B) by lia.
  rewrite (Z.quot_div_nonneg (V mod B * K) B) by nia.
  reflexivity.
Qed.

(** The output on a string of digits reads back as the balance in units of
    10^13 wei over 10^5. *)
Lemma weiToEtherFixed5_reads (s : jsstring) :
  digitString s ->
  exists out q,
    weiToEtherFixed5 s = Normal out
    /\ parseDecimal out = Some q
    /\ (q == (decimalValue s / 10 ^ 13)%Z # 10 ^ 5)%Q.
Proof.
  intros Hs.
  destruct (weiToEtherFixed5_digits Hs)
    as (w & f & E & ((Hwne & Hw) & Hwv & _) & Hlen & Hf & Hfv).
  pose proof (splitAtDot_digits f Hw) as Hsplit.
  pose proof (decimalValue_bounds (proj2 Hs)) as [HV _].
  exists (w ++ lit "." ++ f). eexists. split; [assumption | split].
  - unfold parseDecimal. rewrite Hsplit.
    rewrite (allDigits_forallb Hw), (allDigits_forallb Hf), Hlen.
    destruct w; [congruence | reflexivity].
  - rewrite Hwv, Hfv, <- (whole_and_decimals HV).
    unfold Qeq, Qplus, inject_Z. cbn [Qnum Qden].
    change (Z.pos (Z.to_pos (10 ^ Z.of_nat 5))) with 100000%Z.
    change (Z.pos (1 * Z.to_pos (10 ^ Z.of_nat 5))) with 100000%Z.
    change (Z.pos (10 ^ 5)) with 100000%Z.
    change (10 ^ 5)%Z with 100000%Z.
    change (Z.pos 1) with 1%Z. ring.
Qed.

(** X11. On any string at all, digits or not, the converter returns, and
    what it returns is a formatted balance (a decimal numeral without a
    leading zero, a dot and exactly five digits) that reads back as a
    rational that is not negative. *)
Theorem weiToEtherFixed5_always_formatted (s : jsstring) :
  exists b q,
    weiToEtherFixed5 s = Normal b /\ formatted b
    /\ parseDecimal b = Some q /\ (0 <= q)%Q.
Proof.
  destruct (weiToEtherFixed5_any s) as (b & E & Hb).
  pose proof Hb as (z & w & f & -> & ((Hwne & Hw) & Hz & _) & Hlen & Hf).
  exists (w ++ lit "." ++ f). eexists. repeat split; trivial.
  - unfold parseDecimal. rewrite (splitAtDot_digits f Hw).
    rewrite (allDigits_forallb Hw), (allDigits_forallb Hf), Hlen.
    destruct w; [congruence | reflexivity].
  - pose proof (decimalValue_bounds Hw) as [H0w _].
    pose proof (decimalValue_bounds Hf) as [H0f _].
    unfold Qle, Qplus, inject_Z. cbn [Qnum Qden]. nia.
Qed.

(** X12. On a string of digits that denotes [V] the displayed value is
    [V] cut down to a multiple of 10^13 wei: it reads back as
    [floor(V / 10^13) / 10^5], which is less than 0.00001 below the true
    balance [V / 10^18]. *)
Theorem weiToEtherFixed5_value (s : jsstring) :
  digitString s ->
  exists out q,
    weiToEtherFixed5 s = Normal out
    /\ parseDecimal out = Some q
    /\ (q == (decimalValue s / 10 ^ 13)%Z # 10 ^ 5)%Q
    /\ (decimalValue s # 10 ^ 18 < q + (1 # 10 ^ 5))%Q.
Proof.
  intros Hs.
  destruct (weiToEtherFixed5_reads Hs) as (out & q & E & Hp & Hq).
  exists out, q. repeat split; trivial.
  rewrite Hq.
  pose proof (decimalValue_bounds (proj2 Hs)) as [HV _].
  set (V := decimalValue s) in *. clearbody V.
  unfold Qlt, Qplus. cbn [Qnum Qden].
  change (Z.pos (10 ^ 5 * 10 ^ 5)) with 10000000000%Z.
  change (Z.pos (10 ^ 18)) with 1000000000000000000%Z.
  change (Z.pos (10 ^ 5)) with 100000%Z.
  change (10 ^ 13)%Z with 10000000000000%Z.
  pose proof (Z.div_mod V 10000000000000 ltac:(discriminate)) as Hdm.
  pose proof (Z.mod_pos_bound V 10000000000000 ltac:(reflexivity)) as Hb.
  set (q13 := (V / 10000000000000)%Z) in *.
  set (r13 := (V mod 10000000000000)%Z) in *.
  clearbody q13 r13. lia.
Qed.

Lemma weiToEtherFixed5_value_witness :
  exists out q,
    weiToEtherFixed5 (lit "1234567890123456789012") = Normal out
    /\ parseDecimal out = Some q
    /\ (q == (decimalValue (lit "1234567890123456789012") / 10 ^ 13)%Z
             # 10 ^ 5)%Q
    /\ (decimalValue (lit "1234567890123456789012") # 10 ^ 18
        < q + (1 # 10 ^ 5))%Q.
Proof.
  exact (weiToEtherFixed5_value digitString_sample).
Defined.

(** X13. A larger balance is never displayed as a smaller one: for two
    strings of digits the displayed values are ordered as the integers
    they denote. *)
Theorem weiToEtherFixed5_monotone (s t : jsstring) :
  digitString s -> digitString t ->
  (decimalValue s <= decimalValue t)%Z ->
  exists out_s out_t q_s q_t,
    weiToEtherFixed5 s = Normal out_s /\ parseDecimal out_s = Some q_s
    /\ weiToEtherFixed5 t = Normal out_t /\ parseDecimal out_t = Some q_t
    /\ (q_s <= q_t)%Q.
Proof.
  intros Hs Ht Hle.
  destruct (weiToEtherFixed5_reads Hs) as (os & qs & Es & Hps & Hqs).
  destruct (weiToEtherFixed5_reads Ht) as (ot & qt & Et & Hpt & Hqt).
  exists os, ot, qs, qt. repeat split; trivial.
  rewrite Hqs, Hqt. unfold Qle. cbn [Qnum Qden].
  apply Z.mul_le_mono_nonneg_r; [discriminate |].
  apply Z.div_le_mono; [reflexivity | assumption].
Qed.

Lemma digitString_sample_small : digitString (lit "999999999999").
Proof.
  split; [discriminate |]. unfold allDigits.
  apply Forall_forall. intros c Hc. simpl in Hc.
  repeat (destruct Hc as [<- | Hc]; [reflexivity |]). contradiction.
Defined.

Lemma weiToEtherFixed5_monotone_witness :
  exists out_s out_t q_s q_t,
    weiToEtherFixed5 (lit "999999999999") = Normal out_s
    /\ parseDecimal out_s = Some q_s
    /\ weiToEtherFixed5 (lit "1234567890123456789012") = Normal out_t
    /\ parseDecimal out_t = Some q_t
    /\ (q_s <= q_t)%Q.
Proof.
  apply (weiToEtherFixed5_monotone digitString_sample_small digitString_sample).
  vm_compute. discriminate.
Defined.

(** X14. Leading zeros do not matter: a string of digits with zeros put in
    front gives the same output, as do any two strings of digits that
    denote the same integer. *)
Theorem weiToEtherFixed5_leading_zeros (s t : jsstring) (n : nat) :
  digitString s -> digitString t -> decimalValue t = decimalValue s ->
  weiToEtherFixed5 t = weiToEtherFixed5 s
  /\ weiToEtherFixed5 (repeat 48 n ++ s) = weiToEtherFixed5 s.
Proof.
  intros Hs Ht E.
  assert (Hsame : forall u, digitString u -> decimalValue u = decimalValue s ->
                            weiToEtherFixed5 u = weiToEtherFixed5 s).
  { intros u Hu Eu.
    now rewrite (weiToEtherFixed5_formula Hu), (weiToEtherFixed5_formula Hs), Eu. }
  split; [now apply Hsame |].
  apply Hsame; [| apply zeros_value].
  destruct Hs as [Hne Hall]. split.
  - destruct n; [assumption | discriminate].
  - now apply zeros_digits.
Qed.

Lemma digitString_sample_zero : digitString (lit "0999999999999").
Proof.
  split; [discriminate |]. unfold allDigits.
  apply Forall_forall. intros c Hc. simpl in Hc.
  repeat (destruct Hc as [<- | Hc]; [reflexivity |]). contradiction.
Defined.

Lemma weiToEtherFixed5_leading_zeros_witness :
  weiToEtherFixed5 (lit "0999999999999") = weiToEtherFixed5 (lit "999999999999")
  /\ weiToEtherFixed5 (repeat 48 3%nat ++ lit "999999999999")
     = weiToEtherFixed5 (lit "999999999999").
Proof.
  apply (@weiToEtherFixed5_leading_zeros
           (lit "999999999999") (lit "0999999999999") 3%nat
           digitString_sample_small digitString_sample_zero).
  reflexivity.
Defined.

(** X15. On a string of digits the display is ["0.00000"] exactly when
    the balance is below 10^13 wei, the smallest amount that shows. *)
Theorem weiToEtherFixed5_dust (s : jsstring) :
  digitString s ->
  weiToEtherFixed5 s = Normal (lit "0.00000")
  <-> (decimalValue s < 10 ^ 13)%Z.
Proof.
  intros Hs.
  pose proof (decimalValue_bounds (proj2 Hs)) as [HV _].
  split.
  - intros E.
    destruct (weiToEtherFixed5_digits Hs)
      as (w & f & E' & ((_ & Hw) & Hwv & _) & _ & _ & Hfv).
    rewrite E in E'. apply Normal_inj in E'.
    apply (f_equal splitAtDot) in E'.
    rewrite (splitAtDot_digits f Hw) in E'.
    change (splitAtDot (lit "0.00000")) with (Some (lit "0", lit "00000")) in E'.
    injection E' as <- <-.
    pose proof (whole_and_decimals HV) as Hsum.
    rewrite <- Hwv, <- Hfv in Hsum.
    change (decimalValue (lit "0") * 10 ^ 5 + decimalValue (lit "00000"))%Z
      with 0%Z in Hsum.
    symmetry in Hsum. apply Z.div_small_iff in Hsum; [| discriminate].
    destruct Hsum as [H | H]; [apply H |].
    assert (0 < 10 ^ 13)%Z by reflexivity. lia.
  - intros Hlt. rewrite (weiToEtherFixed5_formula Hs).
    assert (H18 : (decimalValue s < 10 ^ 18)%Z).
    { eapply Z.lt_trans; [exact Hlt | reflexivity]. }
    rewrite (Z.div_small _ _ (conj HV H18)), (Z.mod_small _ _ (conj HV H18)).
    assert ((decimalValue s * 10 ^ 5 / 10 ^ 18 = 0)%Z) as ->; [| reflexivity].
    apply Z.div_small. split; [| ].
    + apply Z.mul_nonneg_nonneg; [assumption | discriminate].
    + change (10 ^ 18)%Z with (10 ^ 13 * 10 ^ 5)%Z.
      apply Z.mul_lt_mono_pos_r; [reflexivity | assumption].
Qed.

Lemma weiToEtherFixed5_dust_witness :
  weiToEtherFixed5 (lit "999999999999") = Normal (lit "0.00000")
  <-> (decimalValue (lit "999999999999") < 10 ^ 13)%Z.
Proof.
  exact (weiToEtherFixed5_dust digitString_sample_small).
Defined.

(* ================================================================= *)
(** * Properties of the page *)

Section PageCheck.

Variable api : json -> Completion Page.ApiResponse.
Variable st : Page.State.

(** The state in which the [try] block of [handleCheck] starts. *)
Let started : Page.State :=
  Page.setLoading true
    (Page.valueMV_set 0%float
       (Page.setBalance Page.null (Page.setError Page.null st))).

Lemma handleCheck_valid :
  Page.isValidEthAddress (Page.address st) = true ->
  Page.handleCheck api st
  = Page.setLoading false
      match Page.handleCheck_try api started with
      | Normal st' => st'
      | Throw =>
          Page.setError (Page.str (lit "Network error. Please try again."))
            started
      end.
Proof.
  intros Hv. unfold Page.handleCheck.
  cbn [Page.address Page.setError Page.setBalance Page.valueMV_set].
  rewrite Hv. reflexivity.
Qed.

(** What the [try] block leaves: the state it started in with either the
    error or the balance written, or a throw. *)
Lemma handleCheck_try_cases :
  Page.handleCheck_try api started = Throw
  \/ (exists e, toBoolean e = true
                /\ Page.handleCheck_try api started
                   = Normal (Page.setError e started))
  \/ (exists b, Page.handleCheck_try api started
                = Normal (Page.setBalance b started)).
Proof.
  unfold Page.handleCheck_try.
  destruct (api _) as [res |]; cbn [bind]; [| now left].
  destruct (Page.api_json res) as [data |]; cbn [bind]; [| now left].
  destruct (Page.api_ok res); cbn [negb].
  - destruct (Page.readField _ data) as [b |]; cbn [bind]; [| now left].
    right; right. now exists b.
  - right; left. eexists. split; [| reflexivity].
    unfold Page.orValue.
    destruct (toBoolean (Page.readOptional _ data)) eqn:E; [assumption |].
    reflexivity.
Qed.

End PageCheck.

(** X16. However the network behaves, [handleCheck] leaves the address
    field as it was and the motion value at 0; it ends with [loading]
    false when the address was valid and leaves [loading] alone when it
    was not; and it never leaves both an error and a balance: one of the
    two is [null]. *)
Theorem handleCheck_settles (api : json -> Completion Page.ApiResponse)
    (st : Page.State) :
  Page.address (Page.handleCheck api st) = Page.address st
  /\ Page.valueMV (Page.handleCheck api st) = 0%float
  /\ Page.loading (Page.handleCheck api st)
     = (if Page.isValidEthAddress (Page.address st) then false
        else Page.loading st)
  /\ (Page.error (Page.handleCheck api st) = Page.null
      \/ Page.balance (Page.handleCheck api st) = Page.null).
Proof.
  destruct (Page.isValidEthAddress (Page.address st)) eqn:Hv.
  - rewrite (handleCheck_valid api st Hv).
    destruct (handleCheck_try_cases api st) as [-> | [(e & _ & ->) | (b & ->)]];
      cbn; repeat split; auto.
  - unfold Page.handleCheck.
    cbn [Page.address Page.setError Page.setBalance Page.valueMV_set].
    rewrite Hv. cbn. repeat split; auto.
Qed.



(** ** The page against the route *)

Section EndToEnd.

Variable key : option jsstring.
Variable upstream : URL -> Completion FetchResponse.

Lemma pageRequest_address (a a' : jsstring) :
  bodyAddress (pageRequest key upstream a) (Some (JStr a')) -> a' = a.
Proof.
  intros (fields & Ereq & Eaddr).
  injection Ereq as <-. now injection Eaddr as ->.
Qed.

(** The paths open to a request of the page with a valid address: the
    two 400 paths and the two body paths are closed. *)
Lemma pageRequest_paths (a : jsstring) (r : Response) :
  Page.isValidEthAddress a = true ->
  handles (pageRequest key upstream a) r ->
  r = misconfigured \/ r = unexpectedError
  \/ (exists st, r = transportFailure st)
  \/ (exists data, r = upstreamRejected data)
  \/ (exists b, r = success b /\ formatted b).
Proof.
  intros Hv H.
  destruct H as
    [Ereq | Ereq | parsed v Ereq Ed Hf | a' Hbody Hne Hinv | a' Hbody Hv' Hk
     | a' k Hk Ef | a' k res Hk Ef Eok | a' k res Hk Ef Eok Ej
     | data Hup Hrej | data r b Hup Es Er Hne Eb];
    try discriminate Ereq; auto.
  - injection Ereq as <-. injection Ed as <-.
    destruct Hf as [Hf | Hf]; [| discriminate Hf].
    cbn in Hf. destruct a; [discriminate Hv | discriminate Hf].
  - apply pageRequest_address in Hbody. subst a'.
    unfold Page.isValidEthAddress in Hv. unfold isValidEthAddress in Hinv.
    congruence.
  - right; right; left. now exists (res_status res).
  - right; right; right; left. now exists data.
  - right; right; right; right. exists b. split; [reflexivity |].
    destruct (weiToEtherFixed5_any r) as (b' & Eb' & Hb).
    rewrite Eb in Eb'. now injection Eb' as ->.
Qed.

End EndToEnd.

(** X18. A request the page makes for an address its own validator
    accepts is never answered 400 by the route: the two validators agree,
    so the response is a 200 with a formatted balance, a 500 or a 502. *)
Theorem pageRequest_not_rejected (key : option jsstring)
    (upstream : URL -> Completion FetchResponse) (a : jsstring) :
  Page.isValidEthAddress a = true ->
  isValidEthAddress a = true
  /\ POST (pageRequest key upstream a) <> missingAddress
  /\ POST (pageRequest key upstream a) <> invalidAddress
  /\ (statusCode (POST (pageRequest key upstream a)) = 200
      \/ statusCode (POST (pageRequest key upstream a)) = 500
      \/ statusCode (POST (pageRequest key upstream a)) = 502).
Proof.
  intros Hv. split; [exact Hv |].
  pose proof (pageRequest_paths Hv (POST_handles (pageRequest key upstream a)))
    as [-> | [-> | [(st & ->) | [(data & ->) | (b & -> & _)]]]];
    repeat split; try (intros E; apply (f_equal statusCode) in E;
                       discriminate E);
    cbn; auto.
Qed.

Lemma pageRequest_not_rejected_witness :
  isValidEthAddress sampleAddress = true
  /\ POST (pageRequest None (fun _ => Throw) sampleAddress) <> missingAddress
  /\ POST (pageRequest None (fun _ => Throw) sampleAddress) <> invalidAddress
  /\ (statusCode (POST (pageRequest None (fun _ => Throw) sampleAddress)) = 200
      \/ statusCode (POST (pageRequest None (fun _ => Throw) sampleAddress)) = 500
      \/ statusCode (POST (pageRequest None (fun _ => Throw) sampleAddress)) = 502).
Proof.
  apply pageRequest_not_rejected. reflexivity.
Defined.




(** ** Paste and the Enter key *)

(** X20. After a paste of a non-empty text the address field holds the
    text trimmed: its verdict is the verdict on the text and it has no
    white space left at either end.  An empty clipboard changes nothing,
    and a clipboard that cannot be read leaves the field alone and puts
    an error on display. *)
Theorem handlePaste_trims (text : jsstring) (st : Page.State) :
  text <> [] ->
  Page.address (Page.handlePaste (Normal text) st) = trim text
  /\ Page.isValidEthAddress (Page.address (Page.handlePaste (Normal text) st))
     = Page.isValidEthAddress text
  /\ trim (Page.address (Page.handlePaste (Normal text) st))
     = Page.address (Page.handlePaste (Normal text) st)
  /\ Page.handlePaste (Normal []) st = st
  /\ Page.address (Page.handlePaste Throw st) = Page.address st
  /\ Page.showsError (Page.handlePaste Throw st) = true.
Proof.
  intros Hne. unfold Page.handlePaste.
  rewrite (truthy_nonempty Hne). cbn [Page.address Page.setAddress truthy].
  assert (Hidem : trim (trim text) = trim text).
  { destruct (trim_spec text) as ((l & r & E & Hl & Hr) & _).
    rewrite E at 2. symmetry. now apply trim_padding. }
  unfold Page.isValidEthAddress. rewrite Hidem. now repeat split.
Qed.

Lemma handlePaste_trims_witness :
  Page.address (Page.handlePaste (Normal (lit "  0x12 ")) samplePage)
  = trim (lit "  0x12 ")
  /\ Page.isValidEthAddress
       (Page.address (Page.handlePaste (Normal (lit "  0x12 ")) samplePage))
     = Page.isValidEthAddress (lit "  0x12 ")
  /\ trim (Page.address (Page.handlePaste (Normal (lit "  0x12 ")) samplePage))
     = Page.address (Page.handlePaste (Normal (lit "  0x12 ")) samplePage)
  /\ Page.handlePaste (Normal []) samplePage = samplePage
  /\ Page.address (Page.handlePaste Throw samplePage) = Page.address samplePage
  /\ Page.showsError (Page.handlePaste Throw samplePage) = true.
Proof.
  apply handlePaste_trims. discriminate.
Defined.

(** X21. A paste of white space alone (a truthy text) empties the address
    field, which disables the Check button. *)
Theorem handlePaste_blank (text : jsstring) (st : Page.State) :
  text <> [] -> Forall blank text ->
  Page.address (Page.handlePaste (Normal text) st) = []
  /\ Page.checkDisabled (Page.handlePaste (Normal text) st) = true.
Proof.
  intros Hne Hb. unfold Page.handlePaste, Page.checkDisabled.
  rewrite (truthy_nonempty Hne). cbn [Page.address Page.loading Page.setAddress].
  assert (trim text = []) as ->.
  { rewrite <- (app_nil_r text).
    change (text ++ []) with (text ++ [] ++ []).
    apply (@trim_padding text [] []); [assumption | constructor]. }
  split; [reflexivity | apply orb_true_r].
Qed.

Lemma handlePaste_blank_witness :
  Page.address (Page.handlePaste (Normal [32; 10]) samplePage) = []
  /\ Page.checkDisabled (Page.handlePaste (Normal [32; 10]) samplePage) = true.
Proof.
  apply handlePaste_blank.
  - discriminate.
  - repeat constructor.
Defined.

(** X22. The Enter key and the Check button are guarded alike: a key
    press does nothing while the button is disabled (a check is running,
    or the field is empty) and nothing for any key that is not Enter;
    with the button enabled, Enter does what a click does. *)
Theorem handleKeyDown_guard (api : json -> Completion Page.ApiResponse)
    (key : jsstring) (st : Page.State) :
  Page.handleKeyDown api key st
  = if sameString key (lit "Enter") && negb (Page.checkDisabled st)
    then Page.handleCheck api st
    else st.
Proof.
  unfold Page.handleKeyDown, Page.checkDisabled.
  destruct (sameString key (lit "Enter")), (Page.loading st),
    (truthy (Page.address st)); reflexivity.
Qed.

(** X23. The page never sends an address its validator rejects: for such
    an address [handleCheck] ends in the same state whatever the network
    is, with the "Please enter a valid Ethereum address" error on
    display, no balance, and [loading] as it was. *)
Theorem handleCheck_invalid (api api' : json -> Completion Page.ApiResponse)
    (st : Page.State) :
  Page.isValidEthAddress (Page.address st) = false ->
  Page.handleCheck api st = Page.handleCheck api' st
  /\ Page.error (Page.handleCheck api st)
     = Page.str
         (lit "Please enter a valid Ethereum address (0x... with 40 hex characters).")
  /\ Page.showsError (Page.handleCheck api st) = true
  /\ Page.balance (Page.handleCheck api st) = Page.null
  /\ Page.showsBalance (Page.handleCheck api st) = false
  /\ Page.loading (Page.handleCheck api st) = Page.loading st.
Proof.
  intros Hv. unfold Page.handleCheck.
  cbn [Page.address Page.setError Page.setBalance Page.valueMV_set].
  rewrite Hv. now repeat split.
Qed.

Lemma handleCheck_invalid_witness :
  Page.handleCheck (fun _ => Throw) (Page.setAddress (lit "0x12") samplePage)
  = Page.handleCheck (endpoint None (fun _ => Throw))
      (Page.setAddress (lit "0x12") samplePage)
  /\ Page.error
       (Page.handleCheck (fun _ => Throw)
          (Page.setAddress (lit "0x12") samplePage))
     = Page.str
         (lit "Please enter a valid Ethereum address (0x... with 40 hex characters).")
  /\ Page.showsError
       (Page.handleCheck (fun _ => Throw)
          (Page.setAddress (lit "0x12") samplePage)) = true
  /\ Page.balance
       (Page.handleCheck (fun _ => Throw)
          (Page.setAddress (lit "0x12") samplePage)) = Page.null
  /\ Page.showsBalance
       (Page.handleCheck (fun _ => Throw)
          (Page.setAddress (lit "0x12") samplePage)) = false
  /\ Page.loading
       (Page.handleCheck (fun _ => Throw)
          (Page.setAddress (lit "0x12") samplePage))
     = Page.loading (Page.setAddress (lit "0x12") samplePage).
Proof.
  apply handleCheck_invalid. reflexivity.
Defined.
